(** * QuicConnectionId: storage, comparison, hashing and rendering

    A shallow embedding of
    [net/third_party/quiche/src/quic/core/quic_connection_id.cc].

    The C++ class keeps a [uint8_t] length and the identifier's bytes in one
    of three places: the fixed array [data_] (when the restart flag
    [quic_use_allocated_connection_ids] is off), the short array
    [data_short_] or a heap block [data_long_] (when the flag is on).  The
    member functions are embedded as computations over an explicit [world]
    (the restart flag, the heap with its allocator, the diagnostics written
    so far); a computation ends normally, or in a failed [CHECK], or in an
    access outside the bounds of a buffer. *)

From Stdlib Require Import ZArith Lia String Ascii.
From Stdlib.Strings Require Byte.
From stdpp Require Import base option list gmap.

Local Open Scope Z_scope.

Abbreviation byte := Byte.byte.

(** ** Bytes as numbers *)

Definition Z_of_byte (b : byte) : Z := Z.of_N (Byte.to_N b).

Definition byte_of_Z (z : Z) : byte :=
  match Byte.of_N (Z.to_N (z mod 256)) with
  | Some b => b
  | None => Byte.x00
  end.

(** ** Outcomes and the world *)

Inductive outcome (A : Type) : Type :=
  | Ok (a : A)          (* the call returns *)
  | CheckFailed         (* a CHECK fails: the process is terminated *)
  | OutOfBounds.        (* a read or write outside a buffer *)
Arguments Ok {A} a.
Arguments CheckFailed {A}.
Arguments OutOfBounds {A}.

(** A pointer to a heap block; [None] is [nullptr]. *)
Definition ptr : Type := option positive.
Definition nullptr : ptr := None.

Record world : Type := World {
  quic_use_allocated_connection_ids : bool;  (* the restart flag *)
  heap : gmap positive (list byte);          (* live blocks *)
  avail : Z;                                 (* bytes the allocator can still hand out *)
  log : list string                          (* diagnostics, newest first *)
}.

Definition M (A : Type) : Type := world -> outcome (A * world).

Definition ret {A} (a : A) : M A := fun w => Ok (a, w).

Definition bind {A B} (m : M A) (k : A -> M B) : M B :=
  fun w => match m w with
           | Ok (a, w') => k a w'
           | CheckFailed => CheckFailed
           | OutOfBounds => OutOfBounds
           end.

Definition lift {A} (o : outcome A) : M A :=
  fun w => match o with
           | Ok a => Ok (a, w)
           | CheckFailed => CheckFailed
           | OutOfBounds => OutOfBounds
           end.

Notation "'let*' x ':=' m 'in' k" := (bind m (fun x => k))
  (at level 10, x name, m at level 100, k at level 200).
Notation "'run' m 'in' k" := (bind m (fun _ => k))
  (at level 10, m at level 100, k at level 200).

(** ** The C library on byte buffers *)

(** [memcpy dst src n]: the buffer [dst] after its first [n] bytes have been
    replaced by the first [n] bytes of [src]. *)
Definition memcpy (dst src : list byte) (n : Z) : outcome (list byte) :=
  if (0 <=? n) && (n <=? Z.of_nat (length src)) && (n <=? Z.of_nat (length dst))
  then Ok (take (Z.to_nat n) src ++ drop (Z.to_nat n) dst)
  else OutOfBounds.

(** The first [n] bytes of two buffers compared as unsigned chars: negative,
    zero or positive as the first differs. *)
Fixpoint memcmp_bytes (a b : list byte) : Z :=
  match a, b with
  | x :: a', y :: b' =>
      if Z_of_byte x =? Z_of_byte y then memcmp_bytes a' b'
      else Z_of_byte x - Z_of_byte y
  | _, _ => 0
  end.

Definition memcmp (a b : list byte) (n : Z) : outcome Z :=
  if (0 <=? n) && (n <=? Z.of_nat (length a)) && (n <=? Z.of_nat (length b))
  then Ok (memcmp_bytes (take (Z.to_nat n) a) (take (Z.to_nat n) b))
  else OutOfBounds.

Section Allocator.

(** The contents of memory that has not been written yet. *)
Variable indeterminate : nat -> byte.

Definition junk (n : Z) : list byte := map indeterminate (seq 0 (Z.to_nat n)).

(** [malloc n] hands out a fresh block of [n] bytes, or [nullptr] when the
    allocator has fewer than [n] bytes left. *)
Definition malloc (n : Z) : M ptr := fun w =>
  if n <=? avail w then
    let p := fresh (dom (heap w)) in
    Ok (Some p, World (quic_use_allocated_connection_ids w)
                      (<[p := junk n]> (heap w)) (avail w - n) (log w))
  else Ok (nullptr, w).

(** [realloc p n] moves the block at [p] to a fresh block of [n] bytes that
    keeps the common prefix, or returns [nullptr] and leaves the block
    alone when the allocator cannot serve the request. *)
Definition realloc (p : ptr) (n : Z) : M ptr := fun w =>
  match p with
  | None => malloc n w
  | Some a =>
      match heap w !! a with
      | None => OutOfBounds
      | Some blk =>
          let old := Z.of_nat (length blk) in
          if n <=? avail w + old then
            let h := delete a (heap w) in
            let q := fresh (dom h) in
            let m := Z.to_nat (Z.min old n) in
            Ok (Some q, World (quic_use_allocated_connection_ids w)
                              (<[q := take m blk ++ drop m (junk n)]> h)
                              (avail w + old - n) (log w))
          else Ok (nullptr, w)
      end
  end.

(** [free p] releases the block at [p]. *)
Definition free (p : ptr) : M unit := fun w =>
  match p with
  | None => Ok (tt, w)
  | Some a =>
      match heap w !! a with
      | None => OutOfBounds
      | Some blk =>
          Ok (tt, World (quic_use_allocated_connection_ids w)
                        (delete a (heap w))
                        (avail w + Z.of_nat (length blk)) (log w))
      end
  end.

End Allocator.

(** The bytes readable through a pointer to a heap block. *)
Definition deref (p : ptr) : M (list byte) := fun w =>
  match p with
  | None => Ok ([], w)
  | Some a => match heap w !! a with
              | Some blk => Ok (blk, w)
              | None => Ok ([], w)
              end
  end.

(** Replace the bytes of the block at [p]. *)
Definition poke (p : ptr) (blk : list byte) : M unit := fun w =>
  match p with
  | None => OutOfBounds
  | Some a => Ok (tt, World (quic_use_allocated_connection_ids w)
                            (<[a := blk]> (heap w)) (avail w) (log w))
  end.

Definition GetQuicRestartFlag : M bool := fun w =>
  Ok (quic_use_allocated_connection_ids w, w).

Definition CHECK_NE (p q : ptr) : M unit := fun w =>
  if decide (p = q) then CheckFailed else Ok (tt, w).

(** Modelled from the spec: [QUIC_BUG] (quic_bug_tracker.h is not among the
    sources) emits a non-fatal diagnostic; the message is recorded in the
    world's log. *)
Definition QUIC_BUG (message : string) : M unit := fun w =>
  Ok (tt, World (quic_use_allocated_connection_ids w) (heap w) (avail w)
                (message :: log w)).

(** ** Machine words *)

(** A little-endian and a big-endian reading of a run of bytes. *)
Fixpoint decode_le (bs : list byte) : Z :=
  match bs with
  | [] => 0
  | b :: bs' => Z_of_byte b + 256 * decode_le bs'
  end.

Definition decode_be (bs : list byte) : Z := decode_le (rev bs).

Fixpoint encode_le (n : nat) (v : Z) : list byte :=
  match n with
  | O => []
  | S n' => byte_of_Z v :: encode_le n' (v / 256)
  end.

Definition encode_be (n : nat) (v : Z) : list byte := rev (encode_le n v).

(** Modelled from the spec: [HexEncode] of [QuicTextUtils]
    (quic_text_utils.h is not among the sources) is the lowercase hexadecimal
    encoding of the raw bytes, two hex digits per byte, no separators. *)
Definition lowercase_hex_digits : string := "0123456789abcdef".

Definition hex_digit (n : Z) : ascii :=
  nth (Z.to_nat n) (list_ascii_of_string lowercase_hex_digits) "0"%char.

Fixpoint hex_of_bytes (bs : list byte) : string :=
  match bs with
  | [] => EmptyString
  | b :: bs' =>
      String (hex_digit (Z_of_byte b / 16))
        (String (hex_digit (Z_of_byte b mod 16)) (hex_of_bytes bs'))
  end.

Definition HexEncode (data : list byte) (n : Z) : outcome string :=
  if (0 <=? n) && (n <=? Z.of_nat (length data))
  then Ok (hex_of_bytes (take (Z.to_nat n) data))
  else OutOfBounds.

(** ** The class *)

(** The declaration of the class (quic_connection_id.h) is not among the
    sources; the members are those the member functions use, each with a
    buffer of its own. *)
Record QuicConnectionId : Type := MkQuicConnectionId {
  length_ : Z;              (* uint8_t length_ *)
  data_ : list byte;        (* char data_[kQuicMaxConnectionIdLength] *)
  data_short_ : list byte;  (* char data_short_[...] *)
  data_long_ : ptr          (* char* data_long_ *)
}.

Definition with_length_ (this : QuicConnectionId) (n : Z) : QuicConnectionId :=
  MkQuicConnectionId n (data_ this) (data_short_ this) (data_long_ this).
Definition with_data_ (this : QuicConnectionId) (d : list byte) : QuicConnectionId :=
  MkQuicConnectionId (length_ this) d (data_short_ this) (data_long_ this).
Definition with_data_short_ (this : QuicConnectionId) (d : list byte) : QuicConnectionId :=
  MkQuicConnectionId (length_ this) (data_ this) d (data_long_ this).
Definition with_data_long_ (this : QuicConnectionId) (p : ptr) : QuicConnectionId :=
  MkQuicConnectionId (length_ this) (data_ this) (data_short_ this) p.

(** Where the [char*] returned by [mutable_data] points. *)
Inductive lvalue : Type :=
  | at_data_
  | at_data_short_
  | at_data_long_ (p : ptr).

(** ** Worlds and identifiers to run the code on *)

(** The examples take a maximum length of 18, a default length of 8 and a
    [data_short_] of 11 bytes, and memory that reads 0xaa before it is
    written. *)
Module Sample.

Definition indeterminate (i : nat) : byte := Byte.xaa.

(** A world with the flag off, and one with the flag on. *)
Definition legacy_world : world := World false ∅ 0 [].
Definition hybrid_world : world := World true ∅ 64 [].

(** A world with the flag on and one live block of twelve bytes. *)
Definition twelve : list byte :=
  [Byte.x01; Byte.x02; Byte.x03; Byte.x04; Byte.x05; Byte.x06;
   Byte.x07; Byte.x08; Byte.x09; Byte.x0a; Byte.x0b; Byte.x0c].

Definition heap_world : world := World true {[ 1%positive := twelve ]} 64 [].

(** The identifier 01 02 03 held in [data_short_], the identifier
    01 02 04 held there too, and the identifier of twelve bytes held in
    the block of [heap_world]. *)
Definition short_id : QuicConnectionId :=
  MkQuicConnectionId 3 (replicate 18 Byte.xaa)
    ([Byte.x01; Byte.x02; Byte.x03] ++ replicate 8 Byte.xaa) nullptr.

Definition other_short_id : QuicConnectionId :=
  MkQuicConnectionId 3 (replicate 18 Byte.xaa)
    ([Byte.x01; Byte.x02; Byte.x04] ++ replicate 8 Byte.xaa) nullptr.

Definition long_id : QuicConnectionId :=
  MkQuicConnectionId 12 (replicate 18 Byte.xaa) (replicate 11 Byte.xaa)
    (Some 1%positive).

(** The identifier 01 02 03 held in [data_], for a world with the flag
    off. *)
Definition legacy_id : QuicConnectionId :=
  MkQuicConnectionId 3
    ([Byte.x01; Byte.x02; Byte.x03] ++ replicate 15 Byte.xaa)
    (replicate 11 Byte.xaa) nullptr.

(** A world with the flag on and two live blocks, and the identifier held
    in the second. *)
Definition two_block_world : world :=
  World true {[ 1%positive := twelve; 2%positive := rev twelve ]} 64 [].

Definition second_long_id : QuicConnectionId :=
  MkQuicConnectionId 12 (replicate 18 Byte.xaa) (replicate 11 Byte.xaa)
    (Some 2%positive).

(** An empty identifier. *)
Definition empty_id : QuicConnectionId :=
  MkQuicConnectionId 0 (replicate 18 Byte.xaa) (replicate 11 Byte.xaa) nullptr.

(** The identifier 01 .. 08 held in [data_short_], and its bytes reversed. *)
Definition eight_id : QuicConnectionId :=
  MkQuicConnectionId 8 (replicate 18 Byte.xaa)
    (take 8 twelve ++ replicate 3 Byte.xaa) nullptr.

Definition thgie_id : QuicConnectionId :=
  MkQuicConnectionId 8 (replicate 18 Byte.xaa)
    (rev (take 8 twelve) ++ replicate 3 Byte.xaa) nullptr.

(** The identifier 01 02 03 again, over other stale bytes. *)
Definition short_id_again : QuicConnectionId :=
  MkQuicConnectionId 3 (replicate 18 Byte.x00)
    ([Byte.x01; Byte.x02; Byte.x03] ++ replicate 8 Byte.x00) nullptr.

(** A world with the flag on whose allocator has five bytes left. *)
Definition starved_world : world := World true ∅ 5 [].

End Sample.

Section QuicConnectionId.

(** quic_connection_id.h and quic_types.h are not among the sources: the
    constants they declare, the size of [data_short_] and the properties of
    the host are parameters. *)
Variable kQuicMaxConnectionIdLength : Z.
Variable kQuicDefaultConnectionIdLength : Z.
Variable sizeof_data_short_ : Z.
Variable host_little_endian : bool.
Variable size_t_bits : Z.
Variable indeterminate : nat -> byte.
Variable indeterminate_ptr : ptr.

(** An object before its constructor has run. *)
Definition uninitialized : QuicConnectionId :=
  {| length_ := Z_of_byte (indeterminate 0);
     data_ := junk indeterminate kQuicMaxConnectionIdLength;
     data_short_ := junk indeterminate sizeof_data_short_;
     data_long_ := indeterminate_ptr |}.

(** [memcpy] into a heap block. *)
Definition memcpy_heap (p : ptr) (src : list byte) (n : Z) : M unit :=
  let* blk := deref p in
  let* blk' := lift (memcpy blk src n) in
  poke p blk'.

(** [os << length] with a [uint8_t] writes the character with that code. *)
Definition stream_uint8 (n : Z) : string :=
  String (ascii_of_N (Z.to_N n)) EmptyString.

Definition oversize_message (n : Z) : string :=
  ("Attempted to create connection ID of length " ++ stream_uint8 n)%string.

(** QuicConnectionId::QuicConnectionId(const char* data, uint8_t length);
    [data] is what can be read through the pointer ([[]] for [nullptr]). *)
Definition QuicConnectionId_ctor (data : list byte) (length : Z)
  : M QuicConnectionId :=
  let* length :=
    (if kQuicMaxConnectionIdLength <? length then
       run QUIC_BUG (oversize_message length) in
       ret kQuicMaxConnectionIdLength
     else ret length) in
  let this := with_length_ uninitialized length in
  if length_ this =? 0 then ret this
  else
    let* flag := GetQuicRestartFlag in
    if negb flag then
      let* d := lift (memcpy (data_ this) data (length_ this)) in
      ret (with_data_ this d)
    else if length_ this <=? sizeof_data_short_ then
      let* d := lift (memcpy (data_short_ this) data (length_ this)) in
      ret (with_data_short_ this d)
    else
      let* p := malloc indeterminate (length_ this) in
      let this := with_data_long_ this p in
      run CHECK_NE nullptr (data_long_ this) in
      run memcpy_heap (data_long_ this) data (length_ this) in
      ret this.

(** QuicConnectionId::QuicConnectionId() *)
Definition QuicConnectionId_default : M QuicConnectionId :=
  QuicConnectionId_ctor [] 0.

(** QuicConnectionId::~QuicConnectionId() *)
Definition QuicConnectionId_dtor (this : QuicConnectionId)
  : M QuicConnectionId :=
  let* flag := GetQuicRestartFlag in
  if negb flag then ret this
  else if sizeof_data_short_ <? length_ this then
    run free (data_long_ this) in
    ret (with_data_long_ this nullptr)
  else ret this.

(** const char* QuicConnectionId::data() const, as the bytes that can be
    read through the pointer it returns. *)
Definition data (this : QuicConnectionId) : M (list byte) :=
  let* flag := GetQuicRestartFlag in
  if negb flag then ret (data_ this)
  else if length_ this <=? sizeof_data_short_ then ret (data_short_ this)
  else deref (data_long_ this).

(** char* QuicConnectionId::mutable_data() *)
Definition mutable_data (this : QuicConnectionId) : M lvalue :=
  let* flag := GetQuicRestartFlag in
  if negb flag then ret at_data_
  else if length_ this <=? sizeof_data_short_ then ret at_data_short_
  else ret (at_data_long_ (data_long_ this)).

(** [memcpy] through a pointer obtained from [mutable_data]. *)
Definition memcpy_to (this : QuicConnectionId) (dst : lvalue)
    (src : list byte) (n : Z) : M QuicConnectionId :=
  match dst with
  | at_data_ =>
      let* d := lift (memcpy (data_ this) src n) in ret (with_data_ this d)
  | at_data_short_ =>
      let* d := lift (memcpy (data_short_ this) src n) in
      ret (with_data_short_ this d)
  | at_data_long_ p =>
      run memcpy_heap p src n in ret this
  end.

(** uint8_t QuicConnectionId::length() const *)
Definition QuicConnectionId_length (this : QuicConnectionId) : Z :=
  length_ this.

(** QuicConnectionId::QuicConnectionId(const QuicConnectionId& other) *)
Definition QuicConnectionId_copy (other : QuicConnectionId)
  : M QuicConnectionId :=
  let* d := data other in
  QuicConnectionId_ctor d (QuicConnectionId_length other).

(** void QuicConnectionId::set_length(uint8_t length) *)
Definition set_length (this : QuicConnectionId) (length : Z)
  : M QuicConnectionId :=
  let* flag := GetQuicRestartFlag in
  let* this :=
    (if flag then
       let temporary_data := junk indeterminate sizeof_data_short_ in
       if sizeof_data_short_ <? length then
         if length_ this <=? sizeof_data_short_ then
           (* Copy data from data_short_ to data_long_. *)
           let* temporary_data :=
             lift (memcpy temporary_data (data_short_ this) (length_ this)) in
           let* p := malloc indeterminate length in
           let this := with_data_long_ this p in
           run CHECK_NE nullptr (data_long_ this) in
           run memcpy_heap (data_long_ this) temporary_data (length_ this) in
           ret this
         else
           (* Resize data_long_. *)
           let* realloc_result :=
             realloc indeterminate (data_long_ this) length in
           run CHECK_NE nullptr realloc_result in
           ret (with_data_long_ this realloc_result)
       else if sizeof_data_short_ <? length_ this then
         (* Copy data from data_long_ to data_short_. *)
         let* blk := deref (data_long_ this) in
         let* temporary_data := lift (memcpy temporary_data blk length) in
         run free (data_long_ this) in
         let this := with_data_long_ this nullptr in
         let* d := lift (memcpy (data_short_ this) temporary_data length) in
         ret (with_data_short_ this d)
       else ret this
     else ret this) in
  ret (with_length_ this length).

(** QuicConnectionId& QuicConnectionId::operator=(const QuicConnectionId&) *)
Definition operator_assign (this other : QuicConnectionId)
  : M QuicConnectionId :=
  let* this := set_length this (QuicConnectionId_length other) in
  let* dst := mutable_data this in
  let* src := data other in
  memcpy_to this dst src (length_ this).

(** bool QuicConnectionId::IsEmpty() const *)
Definition IsEmpty (this : QuicConnectionId) : bool := length_ this =? 0.

(** The host's reading of eight bytes of memory as a [uint64_t], and the
    bytes of a [uint64_t] in memory. *)
Definition uint64_of_bytes (bs : list byte) : Z :=
  if host_little_endian then decode_le bs else decode_be bs.

Definition bytes_of_uint64 (v : Z) : list byte :=
  if host_little_endian then encode_le 8 v else encode_be 8 v.

(** Modelled from the spec: [QuicEndian::NetToHost64] (quic_endian.h is not
    among the sources) reinterprets its argument as a big-endian 64-bit
    value converted to host order. *)
Definition NetToHost64 (v : Z) : Z := decode_be (bytes_of_uint64 v).

(** Conversion of a [uint64_t] to [size_t]. *)
Definition to_size_t (v : Z) : Z := v mod 2 ^ size_t_bits.

(** [data_bytes[i]] of a 24-byte buffer seen as [uint64_t[3]]. *)
Definition uint64_at (buffer : list byte) (i : nat) : Z :=
  uint64_of_bytes (take 8 (drop (8 * i) buffer)).

(** size_t QuicConnectionId::Hash() const *)
Definition Hash (this : QuicConnectionId) : M Z :=
  let data_bytes := replicate 24 Byte.x00 in
  let* d := data this in
  let* data_bytes := lift (memcpy data_bytes d (length_ this)) in
  ret (to_size_t
         (NetToHost64
            (Z.lxor
               (Z.lxor
                  (Z.lxor
                     (Z.lxor kQuicDefaultConnectionIdLength (length_ this))
                     (uint64_at data_bytes 0))
                  (uint64_at data_bytes 1))
               (uint64_at data_bytes 2)))).

(** std::string QuicConnectionId::ToString() const *)
Definition ToString (this : QuicConnectionId) : M string :=
  if IsEmpty this then ret "0"%string
  else
    let* d := data this in
    lift (HexEncode d (length_ this)).

(** bool QuicConnectionId::operator==(const QuicConnectionId& v) const *)
Definition operator_eq (this v : QuicConnectionId) : M bool :=
  if length_ this =? length_ v then
    let* a := data this in
    let* b := data v in
    let* c := lift (memcmp a b (length_ this)) in
    ret (c =? 0)
  else ret false.

(** bool QuicConnectionId::operator!=(const QuicConnectionId& v) const *)
Definition operator_ne (this v : QuicConnectionId) : M bool :=
  let* e := operator_eq v this in
  ret (negb e).

(** bool QuicConnectionId::operator<(const QuicConnectionId& v) const *)
Definition operator_lt (this v : QuicConnectionId) : M bool :=
  if length_ this <? length_ v then ret true
  else if length_ v <? length_ this then ret false
  else
    let* a := data this in
    let* b := data v in
    let* c := lift (memcmp a b (length_ this)) in
    ret (c <? 0).

(** QuicConnectionId EmptyQuicConnectionId() *)
Definition EmptyQuicConnectionId : M QuicConnectionId :=
  QuicConnectionId_default.

(** ** Identifiers and what they hold *)

(** The object's buffers have their declared sizes, its length is a
    [uint8_t] within the maximum, and, when the bytes live on the heap,
    [data_long_] points to a live block of exactly [length_] bytes. *)
Definition well_formed (w : world) (this : QuicConnectionId) : bool :=
  (Z.of_nat (length (data_ this)) =? kQuicMaxConnectionIdLength)
  && (Z.of_nat (length (data_short_ this)) =? sizeof_data_short_)
  && (0 <=? length_ this)
  && (length_ this <=? kQuicMaxConnectionIdLength)
  && (if quic_use_allocated_connection_ids w
         && (sizeof_data_short_ <? length_ this)
      then match data_long_ this with
           | Some a => match heap w !! a with
                       | Some blk => Z.of_nat (length blk) =? length_ this
                       | None => false
                       end
           | None => false
           end
      else true).

(** The [length()] bytes at [data()]. *)
Definition bytes (this : QuicConnectionId) (w : world) : list byte :=
  match data this w with
  | Ok (d, _) => take (Z.to_nat (length_ this)) d
  | _ => []
  end.

(** What an identifier holds after a call, or nothing when the call does
    not return. *)
Definition held (r : outcome (QuicConnectionId * world))
  : option (Z * list byte * ptr) :=
  match r with
  | Ok (id, w) => Some (length_ id, bytes id w, data_long_ id)
  | _ => None
  end.

(** The allocator can serve a block of [n] bytes, where one is needed:
    only with the flag on and [n] above the size of [data_short_]. *)
Definition can_hold (w : world) (n : Z) : bool :=
  negb (quic_use_allocated_connection_ids w)
  || (n <=? sizeof_data_short_) || (n <=? avail w).

(** An unsigned lexicographic order on runs of bytes. *)
Inductive lex_lt : list byte -> list byte -> Prop :=
  | lex_lt_nil b bs : lex_lt [] (b :: bs)
  | lex_lt_head a b as_ bs :
      Z_of_byte a < Z_of_byte b -> lex_lt (a :: as_) (b :: bs)
  | lex_lt_tail a as_ bs : lex_lt as_ bs -> lex_lt (a :: as_) (a :: bs).

(** The hash as the specification words it: the bytes, zero-padded to three
    64-bit words, the words combined by exclusive or with the length and
    with the default length, the result read as a big-endian value. *)
Definition zero_padded (bs : list byte) : list byte :=
  bs ++ replicate (24 - length bs)%nat Byte.x00.

Definition hash_formula (n : Z) (bs : list byte) : Z :=
  let word (i : nat) := uint64_of_bytes (take 8 (drop (8 * i) (zero_padded bs))) in
  NetToHost64
    (Z.lxor (Z.lxor (Z.lxor (Z.lxor kQuicDefaultConnectionIdLength n)
                       (word 0%nat)) (word 1%nat)) (word 2%nat)).

(** Whether the identifier's bytes live in a heap block. *)
Definition on_heap (w : world) (this : QuicConnectionId) : bool :=
  quic_use_allocated_connection_ids w
  && (sizeof_data_short_ <? length_ this).

(** The heap without the block the identifier owns, and the allocator's
    budget with that block given back. *)
Definition rest_of_heap (w : world) (this : QuicConnectionId)
  : gmap positive (list byte) :=
  if on_heap w this then
    match data_long_ this with
    | Some a => delete a (heap w)
    | None => heap w
    end
  else heap w.

Definition budget (w : world) (this : QuicConnectionId) : Z :=
  if on_heap w this then avail w + length_ this else avail w.

(** Two identifiers that both live on the heap and point to one block. *)
Definition shares_block (w : world) (a b : QuicConnectionId) : bool :=
  on_heap w a && on_heap w b && bool_decide (data_long_ a = data_long_ b).

(** A call that, if it returns, leaves the heap and the allocator as they
    were. *)
Definition heap_untouched {A : Type} (w : world) (r : outcome (A * world))
  : Prop :=
  match r with
  | Ok (_, w') => heap w' = heap w /\ avail w' = avail w
  | _ => True
  end.

(** The bytes 0x01 .. 0x08 of the specification's scenarios. *)
Definition one_to_eight : list byte :=
  [Byte.x01; Byte.x02; Byte.x03; Byte.x04;
   Byte.x05; Byte.x06; Byte.x07; Byte.x08].

(** ** Buffers *)

Ltac fields :=
  cbn [length_ data_ data_short_ data_long_ with_length_ with_data_
       with_data_short_ with_data_long_ uninitialized
       heap avail log quic_use_allocated_connection_ids] in *.

Lemma memcpy_ok (dst src : list byte) (n : Z) :
  0 <= n -> n <= Z.of_nat (length src) -> n <= Z.of_nat (length dst) ->
  memcpy dst src n = Ok (take (Z.to_nat n) src ++ drop (Z.to_nat n) dst).
Proof.
  intros H0 H1 H2. unfold memcpy.
  assert ((0 <=? n) && (n <=? Z.of_nat (length src))
          && (n <=? Z.of_nat (length dst)) = true) as ->; [|done].
  rewrite !andb_true_iff. repeat split; lia.
Qed.


Lemma take_memcpy (dst src : list byte) (n : Z) :
  0 <= n -> n <= Z.of_nat (length src) ->
  take (Z.to_nat n) (take (Z.to_nat n) src ++ drop (Z.to_nat n) dst)
  = take (Z.to_nat n) src.
Proof.
  intros H0 H1. rewrite take_app_le by (rewrite length_take; lia).
  rewrite take_take. f_equal. lia.
Qed.

Lemma junk_length (n : Z) : length (junk indeterminate n) = Z.to_nat n.
Proof. unfold junk. by rewrite length_map, length_seq. Qed.

Ltac lengths :=
  repeat (progress
            (rewrite ?length_app, ?length_take, ?length_drop, ?junk_length));
  lia.

(** ** Well-formed identifiers *)

Lemma well_formed_inv (w : world) (this : QuicConnectionId) :
  well_formed w this = true ->
  Z.of_nat (length (data_ this)) = kQuicMaxConnectionIdLength
  /\ Z.of_nat (length (data_short_ this)) = sizeof_data_short_
  /\ 0 <= length_ this <= kQuicMaxConnectionIdLength
  /\ (quic_use_allocated_connection_ids w = true ->
      sizeof_data_short_ < length_ this ->
      exists a blk, data_long_ this = Some a /\ heap w !! a = Some blk
                    /\ Z.of_nat (length blk) = length_ this).
Proof.
  unfold well_formed. rewrite !andb_true_iff.
  intros [[[[H1 H2] H3] H4] H5].
  repeat split; try lia.
  intros Hf Hs. rewrite Hf in H5.
  assert ((sizeof_data_short_ <? length_ this) = true) as E by lia.
  rewrite E in H5. simpl in H5.
  destruct (data_long_ this) as [a|]; [|done].
  destruct (heap w !! a) as [blk|] eqn:Hb; [|done].
  exists a, blk. repeat split; [done | lia].
Qed.

Lemma well_formed_intro (w : world) (this : QuicConnectionId) :
  Z.of_nat (length (data_ this)) = kQuicMaxConnectionIdLength ->
  Z.of_nat (length (data_short_ this)) = sizeof_data_short_ ->
  0 <= length_ this <= kQuicMaxConnectionIdLength ->
  (quic_use_allocated_connection_ids w = true ->
   sizeof_data_short_ < length_ this ->
   exists a blk, data_long_ this = Some a /\ heap w !! a = Some blk
                 /\ Z.of_nat (length blk) = length_ this) ->
  well_formed w this = true.
Proof.
  intros H1 H2 H3 H4. unfold well_formed. rewrite !andb_true_iff.
  repeat split; try lia.
  destruct (quic_use_allocated_connection_ids w) eqn:Hf; [|done].
  destruct (sizeof_data_short_ <? length_ this) eqn:Hs; [|done].
  destruct H4 as (a & blk & -> & -> & Hl); [done | lia |]. simpl. lia.
Qed.

(** [data()] never fails, and for a well-formed identifier at least
    [length()] bytes can be read through it. *)
Lemma data_readable (w : world) (this : QuicConnectionId) :
  well_formed w this = true ->
  exists d, data this w = Ok (d, w) /\ length_ this <= Z.of_nat (length d).
Proof.
  intros Hwf. destruct (well_formed_inv _ _ Hwf) as (H1 & H2 & H3 & H4).
  unfold data, bind, GetQuicRestartFlag, ret.
  destruct (quic_use_allocated_connection_ids w) eqn:Hf; simpl.
  - destruct (length_ this <=? sizeof_data_short_) eqn:Hs.
    + eexists; split; [done | lia].
    + destruct H4 as (a & blk & Ha & Hb & Hl); [done | lia |].
      rewrite Ha. unfold deref. rewrite Hb. eexists; split; [done | lia].
  - eexists; split; [done | lia].
Qed.

Lemma bytes_data (w : world) (this : QuicConnectionId) (d : list byte) :
  data this w = Ok (d, w) ->
  bytes this w = take (Z.to_nat (length_ this)) d.
Proof. unfold bytes. by intros ->. Qed.

Lemma bytes_length (w : world) (this : QuicConnectionId) :
  well_formed w this = true ->
  Z.of_nat (length (bytes this w)) = length_ this.
Proof.
  intros Hwf. destruct (data_readable _ _ Hwf) as (d & Hd & Hl).
  destruct (well_formed_inv _ _ Hwf) as (_ & _ & H3 & _).
  rewrite (bytes_data _ _ _ Hd), length_take. lia.
Qed.

(** ** Construction *)

Hypothesis max_is_uint8 : 0 <= kQuicMaxConnectionIdLength <= 255.
Hypothesis sizeof_nonneg : 0 <= sizeof_data_short_.

(** What the constructor does with any readable buffer and any requested
    length: the length is clamped, the bytes are copied into the active
    storage, and a clamped request leaves a diagnostic. *)
Lemma QuicConnectionId_ctor_spec (d : list byte) (n : Z) (w : world) :
  0 <= n ->
  Z.min n kQuicMaxConnectionIdLength <= Z.of_nat (length d) ->
  can_hold w (Z.min n kQuicMaxConnectionIdLength) = true ->
  exists this w',
    QuicConnectionId_ctor d n w = Ok (this, w')
    /\ length_ this = Z.min n kQuicMaxConnectionIdLength
    /\ bytes this w' = take (Z.to_nat (Z.min n kQuicMaxConnectionIdLength)) d
    /\ well_formed w' this = true
    /\ quic_use_allocated_connection_ids w'
       = quic_use_allocated_connection_ids w
    /\ log w' = (if kQuicMaxConnectionIdLength <? n
                 then oversize_message n :: log w else log w).
Proof.
  intros Hn Hd Hmem.
  set (m := Z.min n kQuicMaxConnectionIdLength) in *.
  unfold QuicConnectionId_ctor.
  (* the clamp *)
  assert (exists w1,
    (if kQuicMaxConnectionIdLength <? n
     then run QUIC_BUG (oversize_message n) in
          ret kQuicMaxConnectionIdLength
     else ret n) w = Ok (m, w1)
    /\ quic_use_allocated_connection_ids w1
       = quic_use_allocated_connection_ids w
    /\ heap w1 = heap w /\ avail w1 = avail w
    /\ log w1 = (if kQuicMaxConnectionIdLength <? n
                 then oversize_message n :: log w else log w))
    as (w1 & Hclamp & Hflag & Hheap & Havail & Hlog).
  { destruct (kQuicMaxConnectionIdLength <? n) eqn:E.
    - eexists. unfold bind, QUIC_BUG, ret; simpl.
      replace m with kQuicMaxConnectionIdLength by lia. done.
    - exists w. unfold ret. replace m with n by lia. done. }
  unfold bind at 1. rewrite Hclamp. rewrite <- Hlog. clear Hclamp Hlog.
  unfold can_hold in Hmem. rewrite <- Hflag, <- Havail in Hmem.
  rewrite <- Hflag. clear Hflag Hheap Havail.
  cbn [length_ with_length_ uninitialized].
  assert (0 <= m <= kQuicMaxConnectionIdLength) as Hm by lia.
  destruct (m =? 0) eqn:E0.
  { exists (with_length_ uninitialized m), w1. unfold ret.
    repeat split; try done.
    - unfold bytes. replace m with 0 by lia.
      destruct (data _ _) as [[? ?]| |]; by rewrite ?take_0.
    - apply well_formed_intro; cbn; rewrite ?junk_length; lia. }
  unfold bind, GetQuicRestartFlag.
  destruct (quic_use_allocated_connection_ids w1) eqn:Hf; cbn [negb].
  - destruct (m <=? sizeof_data_short_) eqn:Es.
    + (* the bytes fit data_short_ *)
      cbn [data_short_ with_length_ uninitialized lift].
      rewrite memcpy_ok by (rewrite ?junk_length; lia).
      eexists _, w1. unfold ret. repeat split; try done.
      * unfold bytes, data, bind, GetQuicRestartFlag, ret. rewrite Hf.
        cbn. rewrite Es. by rewrite take_memcpy by lia.
      * apply well_formed_intro; cbn;
          try lengths.
    + (* the bytes go to a fresh heap block *)
      cbn [length_ with_length_ uninitialized].
      unfold malloc.
      assert ((m <=? avail w1) = true) as ->.
      { rewrite !orb_true_iff in Hmem. cbn in Hmem. lia. }
      set (p := fresh (dom (heap w1))).
      cbn [data_long_ with_data_long_]. unfold CHECK_NE.
      rewrite decide_False by done.
      unfold memcpy_heap, bind, deref, lift, poke. fields.
      rewrite lookup_insert_eq.
      rewrite memcpy_ok by (rewrite ?junk_length; lia). fields.
      eexists _, _. unfold ret. repeat split; try done.
      * unfold bytes, data, bind, GetQuicRestartFlag, ret. cbn.
        rewrite Hf, Es. cbn. rewrite lookup_insert_eq.
        by rewrite take_memcpy by lia.
      * apply well_formed_intro; cbn; rewrite ?junk_length; try lia.
        intros _ _. eexists _, _. split; [done|].
        rewrite lookup_insert_eq. split; [done|].
        lengths.
  - (* flag off: the bytes go to data_ *)
    cbn [data_ with_length_ uninitialized lift].
    rewrite memcpy_ok by (rewrite ?junk_length; lia).
    eexists _, w1. unfold ret. repeat split; try done.
    + unfold bytes, data, bind, GetQuicRestartFlag, ret. rewrite Hf.
      cbn. by rewrite take_memcpy by lia.
    + apply well_formed_intro; cbn;
        try lengths.
      by rewrite Hf.
Qed.

(** ** Resizing *)

Lemma take_overwritten (a b : nat) (src dst : list byte) :
  (a <= b)%nat -> (b <= length src)%nat ->
  take a (take b src ++ drop b dst) = take a src.
Proof.
  intros Hab Hb. rewrite take_app_le by (rewrite length_take; lia).
  rewrite take_take. f_equal. lia.
Qed.

(** What [set_length] does to a well-formed identifier when the new length
    is within the maximum. *)
Lemma set_length_spec (this : QuicConnectionId) (n : Z) (w : world) :
  well_formed w this = true ->
  0 <= n <= kQuicMaxConnectionIdLength ->
  can_hold w n = true ->
  exists this' w',
    set_length this n w = Ok (this', w')
    /\ length_ this' = n
    /\ well_formed w' this' = true
    /\ take (Z.to_nat (Z.min (length_ this) n)) (bytes this' w')
       = take (Z.to_nat (Z.min (length_ this) n)) (bytes this w)
    /\ quic_use_allocated_connection_ids w'
       = quic_use_allocated_connection_ids w
    /\ (quic_use_allocated_connection_ids w = false ->
        w' = w /\ this' = with_length_ this n).
Proof.
  intros Hwf Hn Hmem.
  destruct (well_formed_inv _ _ Hwf) as (H1 & H2 & H3 & H4).
  unfold can_hold in Hmem. rewrite !orb_true_iff in Hmem.
  unfold set_length, bytes, data, bind, GetQuicRestartFlag.
  destruct (quic_use_allocated_connection_ids w) eqn:Hf; cbn [negb].
  2:{ (* flag off *)
    eexists _, w. unfold ret. fields. rewrite Hf. cbn [negb].
    repeat split; try done.
    - apply well_formed_intro; fields; try lia. by rewrite Hf.
    - fields. rewrite !take_take. f_equal. lia. }
  destruct (sizeof_data_short_ <? n) eqn:En.
  - destruct (length_ this <=? sizeof_data_short_) eqn:El.
    + (* data_short_ to data_long_ *)
      unfold lift. rewrite memcpy_ok by (rewrite ?junk_length; lia).
      unfold malloc.
      assert ((n <=? avail w) = true) as -> by (cbn in Hmem; lia).
      fields. unfold CHECK_NE. rewrite decide_False by done.
      unfold memcpy_heap, bind, deref, lift, poke. fields.
      rewrite lookup_insert_eq.
      rewrite memcpy_ok
        by lengths.
      unfold ret. fields. eexists _, _. split; [done|]. fields.
      rewrite Hf. cbn [negb].
      assert ((n <=? sizeof_data_short_) = false) as -> by lia.
      unfold deref. fields. rewrite lookup_insert_eq.
      repeat split; try done.
      * apply well_formed_intro; fields; try lia.
        intros _ _. eexists _, _. split; [done|].
        rewrite lookup_insert_eq. split; [done|].
        lengths.
      * replace (Z.min (length_ this) n) with (length_ this) by lia.
        rewrite !take_take.
        replace (Z.to_nat (length_ this) `min` Z.to_nat n)%nat
          with (Z.to_nat (length_ this)) by lia.
        rewrite Nat.min_id.
        rewrite take_overwritten;
          [|lia|lengths].
        rewrite take_overwritten by lia. done.
    + (* data_long_ resized *)
      destruct H4 as (a & blk & Ha & Hb & Hl); [done | lia |].
      rewrite Ha. unfold realloc. rewrite Hb.
      assert ((n <=? avail w + Z.of_nat (length blk)) = true) as ->
        by (cbn in Hmem; lia).
      unfold CHECK_NE. rewrite decide_False by done.
      unfold ret. fields. eexists _, _. split; [done|]. fields.
      rewrite Hf. cbn [negb].
      assert ((n <=? sizeof_data_short_) = false) as -> by lia.
      unfold deref. fields. rewrite lookup_insert_eq, Hb.
      repeat split; try done.
      * apply well_formed_intro; fields; try lia.
        intros _ _. eexists _, _. split; [done|].
        rewrite lookup_insert_eq. split; [done|].
        lengths.
      * rewrite !take_take.
        rewrite take_app_le by (rewrite length_take; lia).
        rewrite take_take. f_equal. lia.
  - destruct (sizeof_data_short_ <? length_ this) eqn:El.
    + (* data_long_ to data_short_ *)
      destruct H4 as (a & blk & Ha & Hb & Hl); [done | lia |].
      rewrite Ha. unfold deref at 1. rewrite Hb. unfold lift.
      rewrite memcpy_ok by (rewrite ?junk_length; lia).
      unfold free. rewrite Hb. fields.
      rewrite memcpy_ok
        by lengths.
      unfold ret. fields. eexists _, _. split; [done|]. fields.
      rewrite Hf. cbn [negb].
      assert ((n <=? sizeof_data_short_) = true) as -> by lia.
      assert ((length_ this <=? sizeof_data_short_) = false) as -> by lia.
      unfold deref. rewrite Hb.
      repeat split; try done.
      * apply well_formed_intro; fields; try lia.
        lengths.
      * replace (Z.min (length_ this) n) with n by lia.
        rewrite !take_take, Nat.min_id.
        replace (Z.to_nat n `min` Z.to_nat (length_ this))%nat
          with (Z.to_nat n) by lia.
        rewrite take_overwritten;
          [|lia|lengths].
        rewrite take_overwritten by lia. done.
    + (* the bytes stay in data_short_ *)
      unfold ret. fields. eexists _, _. split; [done|]. fields.
      rewrite Hf. cbn [negb].
      assert ((n <=? sizeof_data_short_) = true) as -> by lia.
      assert ((length_ this <=? sizeof_data_short_) = true) as -> by lia.
      repeat split; try done.
      * apply well_formed_intro; fields; lia.
      * rewrite !take_take. f_equal. lia.
Qed.

(** ** Assignment *)

(** [set_length] leaves the blocks of other identifiers alone, and the block
    it moves an identifier to is none of them. *)
Lemma set_length_frame (this this' : QuicConnectionId) (n : Z) (w w' : world)
    (b : positive) (blk : list byte) :
  set_length this n w = Ok (this', w') ->
  heap w !! b = Some blk ->
  (quic_use_allocated_connection_ids w = true ->
   sizeof_data_short_ < length_ this -> data_long_ this <> Some b) ->
  heap w' !! b = Some blk
  /\ (quic_use_allocated_connection_ids w = true ->
      sizeof_data_short_ < n -> data_long_ this' <> Some b).
Proof.
  intros Hrun Hb Hne.
  assert (forall X : gset positive, b ∈ X -> fresh X <> b) as Hfresh.
  { intros X HX E. apply (is_fresh X). by rewrite E. }
  unfold set_length, bind, GetQuicRestartFlag in Hrun.
  destruct (quic_use_allocated_connection_ids w) eqn:Hf.
  2:{ unfold ret in Hrun. injection Hrun as <- <-. done. }
  destruct (sizeof_data_short_ <? n) eqn:En.
  - destruct (length_ this <=? sizeof_data_short_) eqn:El.
    + unfold lift in Hrun.
      destruct (memcpy _ (data_short_ this) _) as [t| |]; try done.
      unfold malloc in Hrun. destruct (n <=? avail w).
      2:{ by unfold CHECK_NE in Hrun; fields; rewrite decide_True in Hrun. }
      unfold CHECK_NE in Hrun. fields. rewrite decide_False in Hrun by done.
      unfold memcpy_heap, bind, deref, lift, poke in Hrun. fields.
      rewrite lookup_insert_eq in Hrun.
      destruct (memcpy _ t _) as [t'| |]; try done.
      unfold ret in Hrun. injection Hrun as <- <-. fields.
      assert (fresh (dom (heap w)) <> b) as Hp
        by (apply Hfresh; by eapply elem_of_dom_2).
      split; [by rewrite !lookup_insert_ne | congruence].
    + unfold realloc in Hrun.
      destruct (data_long_ this) as [a|] eqn:Ha.
      * destruct (heap w !! a) as [old|] eqn:Hold; [|done].
        destruct (n <=? avail w + Z.of_nat (length old)).
        2:{ by unfold CHECK_NE in Hrun; rewrite decide_True in Hrun. }
        unfold CHECK_NE in Hrun. rewrite decide_False in Hrun by done.
        unfold ret in Hrun. injection Hrun as <- <-. fields.
        assert (a <> b) as Hab by (intros ->; apply Hne; [done | lia | done]).
        assert (fresh (dom (delete a (heap w))) <> b) as Hq.
        { apply Hfresh. apply elem_of_dom. rewrite lookup_delete_ne by done.
          by rewrite Hb. }
        split; [|congruence].
        by rewrite lookup_insert_ne, lookup_delete_ne.
      * unfold malloc in Hrun. destruct (n <=? avail w).
        2:{ by unfold CHECK_NE in Hrun; rewrite decide_True in Hrun. }
        unfold CHECK_NE in Hrun. rewrite decide_False in Hrun by done.
        unfold ret in Hrun. injection Hrun as <- <-. fields.
        assert (fresh (dom (heap w)) <> b) as Hp
          by (apply Hfresh; by eapply elem_of_dom_2).
        split; [by rewrite lookup_insert_ne | congruence].
  - assert (~ sizeof_data_short_ < n) as Hn by lia.
    destruct (sizeof_data_short_ <? length_ this) eqn:El.
    + unfold deref at 1 in Hrun. unfold lift, free in Hrun.
      destruct (data_long_ this) as [a|] eqn:Ha.
      * assert (a <> b) as Hab by (intros ->; apply Hne; [done | lia | done]).
        destruct (heap w !! a) as [old|] eqn:Hold.
        -- destruct (memcpy _ old _) as [t| |]; try done. fields.
           rewrite Hold in Hrun.
           destruct (memcpy _ t _) as [t'| |]; try done.
           unfold ret in Hrun. injection Hrun as <- <-. fields.
           split; [by rewrite lookup_delete_ne | done].
        -- destruct (memcpy _ [] _) as [t| |]; try done.
           by rewrite Hold in Hrun.
      * destruct (memcpy _ [] _) as [t| |]; try done. fields.
        destruct (memcpy _ t _) as [t'| |]; try done.
        unfold ret in Hrun. injection Hrun as <- <-. done.
    + unfold ret in Hrun. injection Hrun as <- <-. done.
Qed.

(** Assignment between two well-formed identifiers that do not share a heap
    block makes the target hold the length and the bytes of the source. *)
Lemma operator_assign_spec (this other : QuicConnectionId) (w : world) :
  well_formed w this = true -> well_formed w other = true ->
  (quic_use_allocated_connection_ids w = true ->
   sizeof_data_short_ < length_ this -> sizeof_data_short_ < length_ other ->
   data_long_ this <> data_long_ other) ->
  can_hold w (length_ other) = true ->
  exists this' w',
    operator_assign this other w = Ok (this', w')
    /\ length_ this' = length_ other
    /\ bytes this' w' = bytes other w
    /\ well_formed w' this' = true.
Proof.
  intros Hthis Hother Hne Hmem.
  destruct (well_formed_inv _ _ Hother) as (O1 & O2 & O3 & O4).
  destruct (set_length_spec this (length_ other) w Hthis O3 Hmem)
    as (this1 & w1 & Hrun & Hlen & Hwf1 & _ & Hflag & _).
  destruct (well_formed_inv _ _ Hwf1) as (T1 & T2 & T3 & T4).
  assert (bytes other w = take (Z.to_nat (length_ other))
                            (if negb (quic_use_allocated_connection_ids w)
                             then data_ other
                             else if length_ other <=? sizeof_data_short_
                                  then data_short_ other
                                  else match data_long_ other with
                                       | Some b => default [] (heap w !! b)
                                       | None => []
                                       end)) as Hbytes.
  { unfold bytes, data, bind, GetQuicRestartFlag, ret, deref.
    destruct (quic_use_allocated_connection_ids w); cbn [negb]; [|done].
    destruct (length_ other <=? sizeof_data_short_); [done|].
    destruct (data_long_ other) as [b|]; [|done].
    by destruct (heap w !! b). }
  rewrite Hbytes. clear Hbytes.
  unfold operator_assign, bind, QuicConnectionId_length. rewrite Hrun.
  unfold mutable_data, data, bind, GetQuicRestartFlag, ret.
  rewrite Hflag, Hlen.
  destruct (quic_use_allocated_connection_ids w) eqn:Hf; cbn [negb].
  2:{ rewrite Hflag. cbn [negb].
      unfold memcpy_to, bind, lift. rewrite memcpy_ok by lia.
      eexists _, w1. unfold ret. split; [done|]. split; [done|]. split.
      - unfold bytes, data, bind, GetQuicRestartFlag, ret. rewrite Hflag.
        fields. cbn [negb]. rewrite Hlen. by rewrite take_memcpy by lia.
      - apply well_formed_intro; fields; try lengths. by rewrite Hflag. }
  destruct (length_ other <=? sizeof_data_short_) eqn:El.
  { rewrite Hflag. cbn [negb].
    unfold memcpy_to, bind, lift. rewrite memcpy_ok by lia.
    eexists _, w1. unfold ret. split; [done|]. split; [done|]. split.
    - unfold bytes, data, bind, GetQuicRestartFlag, ret. rewrite Hflag.
      fields. cbn [negb]. rewrite Hlen, El. by rewrite take_memcpy by lia.
    - apply well_formed_intro; fields; try lengths. }
  destruct O4 as (b & blk & Ob & Hb & Hbl); [done | lia |].
  destruct T4 as (a & blk1 & Ta & Ha & Hal); [by rewrite Hflag | lia |].
  destruct (set_length_frame this this1 (length_ other) w w1 b blk Hrun Hb)
    as [Hb1 Hab].
  { intros _ Hs E. apply Hne; try done; [lia | congruence]. }
  rewrite Hflag. cbn [negb].
  rewrite Ob, Hb. unfold deref at 1. rewrite Hb1. cbn [default].
  unfold memcpy_to, memcpy_heap, bind, deref, lift, poke. rewrite Ta, Ha.
  rewrite memcpy_ok by lia.
  eexists _, _. unfold ret. split; [done|]. split; [done|]. split.
  - unfold bytes, data, bind, GetQuicRestartFlag, ret. fields.
    rewrite Hflag. cbn [negb]. rewrite Hlen, El, Ta. unfold deref. fields.
    rewrite lookup_insert_eq. by rewrite take_memcpy by lia.
  - apply well_formed_intro; fields; try lia.
    intros _ _. eexists _, _. split; [done|].
    rewrite lookup_insert_eq. split; [done|]. lengths.
Qed.

(** ** Bytes and [memcmp] *)

Lemma Z_of_byte_range (b : byte) : 0 <= Z_of_byte b < 256.
Proof.
  unfold Z_of_byte. pose proof (Byte.to_N_bounded b). lia.
Qed.

Lemma Z_of_byte_inj (a b : byte) : Z_of_byte a = Z_of_byte b -> a = b.
Proof.
  unfold Z_of_byte. intros H. apply N2Z.inj in H.
  pose proof (Byte.of_to_N a) as Ha. rewrite H, Byte.of_to_N in Ha.
  congruence.
Qed.


Lemma memcmp_bytes_swap (a b : list byte) :
  memcmp_bytes b a = - memcmp_bytes a b.
Proof.
  revert b. induction a as [|x a IH]; intros [|y b]; simpl; try done.
  destruct (Z_of_byte x =? Z_of_byte y) eqn:E.
  - apply Z.eqb_eq in E. rewrite E, Z.eqb_refl. apply IH.
  - apply Z.eqb_neq in E.
    assert ((Z_of_byte y =? Z_of_byte x) = false) as -> by lia. lia.
Qed.

Lemma memcmp_bytes_eq (a b : list byte) :
  length a = length b -> memcmp_bytes a b = 0 <-> a = b.
Proof.
  revert b. induction a as [|x a IH]; intros [|y b] Hl; simpl in *;
    try done.
  destruct (Z_of_byte x =? Z_of_byte y) eqn:E.
  - apply Z.eqb_eq, Z_of_byte_inj in E. subst y.
    rewrite IH by lia. split; [by intros -> | by intros [= ->]].
  - apply Z.eqb_neq in E. split; [lia|]. intros [= -> _]. done.
Qed.

Lemma memcmp_bytes_lt (a b : list byte) :
  length a = length b -> memcmp_bytes a b < 0 <-> lex_lt a b.
Proof.
  revert b. induction a as [|x a IH]; intros [|y b] Hl; simpl in *;
    try done.
  - split; [lia | inversion 1].
  - destruct (Z_of_byte x =? Z_of_byte y) eqn:E.
    + apply Z.eqb_eq, Z_of_byte_inj in E. subst y.
      rewrite IH by lia. split; [by constructor|].
      inversion 1; subst; [lia | done].
    + apply Z.eqb_neq in E. split.
      * intros H. apply lex_lt_head. lia.
      * inversion 1; subst; [lia | done].
Qed.

Lemma lex_lt_trans (a b c : list byte) :
  lex_lt a b -> lex_lt b c -> lex_lt a c.
Proof.
  intros Hab. revert c. induction Hab; intros c Hbc; inversion Hbc; subst;
    try (by constructor).
  - apply lex_lt_head. lia.
  - apply lex_lt_tail. by apply IHHab.
Qed.

(** ** Comparison *)

(** On two well-formed identifiers of one length, [memcmp] over
    [data()] compares their bytes. *)
Lemma memcmp_data (x y : QuicConnectionId) (w : world) :
  well_formed w x = true -> well_formed w y = true ->
  length_ x = length_ y ->
  exists dx dy,
    data x w = Ok (dx, w) /\ data y w = Ok (dy, w)
    /\ memcmp dx dy (length_ x)
       = Ok (memcmp_bytes (bytes x w) (bytes y w)).
Proof.
  intros Hx Hy Hl.
  destruct (data_readable _ _ Hx) as (dx & Hdx & Hlx).
  destruct (data_readable _ _ Hy) as (dy & Hdy & Hly).
  destruct (well_formed_inv _ _ Hx) as (_ & _ & H3 & _).
  exists dx, dy. repeat split; try done.
  rewrite (bytes_data _ _ _ Hdx), (bytes_data _ _ _ Hdy), <- Hl.
  unfold memcmp.
  assert ((0 <=? length_ x) && (length_ x <=? Z.of_nat (length dx))
          && (length_ x <=? Z.of_nat (length dy)) = true) as ->; [|done].
  rewrite !andb_true_iff. repeat split; lia.
Qed.

Lemma operator_eq_spec (x y : QuicConnectionId) (w : world) :
  well_formed w x = true -> well_formed w y = true ->
  operator_eq x y w
  = Ok ((length_ x =? length_ y)
        && (memcmp_bytes (bytes x w) (bytes y w) =? 0), w).
Proof.
  intros Hx Hy. unfold operator_eq.
  destruct (length_ x =? length_ y) eqn:E; [|done].
  apply Z.eqb_eq in E.
  destruct (memcmp_data x y w Hx Hy E) as (dx & dy & Hdx & Hdy & Hc).
  unfold bind. rewrite Hdx, Hdy. unfold lift. by rewrite Hc.
Qed.

Lemma operator_lt_spec (x y : QuicConnectionId) (w : world) :
  well_formed w x = true -> well_formed w y = true ->
  operator_lt x y w
  = Ok ((length_ x <? length_ y)
        || ((length_ x =? length_ y)
            && (memcmp_bytes (bytes x w) (bytes y w) <? 0)), w).
Proof.
  intros Hx Hy. unfold operator_lt.
  destruct (length_ x <? length_ y) eqn:E1; [done|].
  destruct (length_ y <? length_ x) eqn:E2.
  { assert ((length_ x =? length_ y) = false) as -> by lia. done. }
  assert (length_ x = length_ y) as E by lia.
  destruct (memcmp_data x y w Hx Hy E) as (dx & dy & Hdx & Hdy & Hc).
  unfold bind. rewrite Hdx, Hdy. unfold lift. rewrite Hc.
  apply Z.eqb_eq in E. by rewrite E.
Qed.

(** ** Hashing *)

Hypothesis data_bytes_holds_max : kQuicMaxConnectionIdLength <= 24.

Lemma Hash_spec (this : QuicConnectionId) (w : world) :
  well_formed w this = true ->
  Hash this w
  = Ok (to_size_t (hash_formula (length_ this) (bytes this w)), w).
Proof.
  intros Hwf. destruct (data_readable _ _ Hwf) as (d & Hd & Hl).
  destruct (well_formed_inv _ _ Hwf) as (_ & _ & H3 & _).
  unfold Hash, bind. rewrite Hd. unfold lift.
  rewrite memcpy_ok by (rewrite ?length_replicate; lia).
  unfold ret, hash_formula, uint64_at, zero_padded.
  rewrite (bytes_data _ _ _ Hd), drop_replicate, length_take.
  replace (Z.to_nat (length_ this) `min` length d)%nat
    with (Z.to_nat (length_ this)) by lia.
  done.
Qed.

Lemma decode_le_range (bs : list byte) :
  0 <= decode_le bs < 256 ^ Z.of_nat (length bs).
Proof.
  induction bs as [|b bs IH]; [simpl; lia|].
  cbn [decode_le length]. rewrite Nat2Z.inj_succ, Z.pow_succ_r by lia.
  pose proof (Z_of_byte_range b). lia.
Qed.

Lemma encode_le_length (n : nat) (v : Z) : length (encode_le n v) = n.
Proof. revert v. induction n as [|n IH]; intros v; simpl; [done|]. by rewrite IH. Qed.

Lemma encode_decode_le (bs : list byte) :
  encode_le (length bs) (decode_le bs) = bs.
Proof.
  induction bs as [|b bs IH]; [done|]. cbn [decode_le length encode_le].
  pose proof (Z_of_byte_range b) as Hb. f_equal.
  - unfold byte_of_Z.
    replace ((Z_of_byte b + 256 * decode_le bs) mod 256) with (Z_of_byte b).
    + unfold Z_of_byte. by rewrite N2Z.id, Byte.of_to_N.
    + rewrite (Z.mul_comm 256), Z.mod_add by lia.
      by rewrite Z.mod_small by lia.
  - replace ((Z_of_byte b + 256 * decode_le bs) / 256) with (decode_le bs);
      [done|].
    rewrite (Z.mul_comm 256), Z.div_add by lia.
    rewrite Z.div_small by lia. lia.
Qed.

Lemma NetToHost64_range (v : Z) : 0 <= NetToHost64 v < 2 ^ 64.
Proof.
  unfold NetToHost64, decode_be.
  pose proof (decode_le_range (rev (bytes_of_uint64 v))) as H.
  rewrite length_rev in H.
  assert (length (bytes_of_uint64 v) = 8%nat) as E.
  { unfold bytes_of_uint64, encode_be.
    destruct host_little_endian; by rewrite ?length_rev, encode_le_length. }
  rewrite E in H. change (256 ^ Z.of_nat 8) with (2 ^ 64) in H. done.
Qed.

(** A value the host read from eight bytes of memory is turned by
    [NetToHost64] into the big-endian reading of those bytes. *)
Lemma NetToHost64_of_bytes (bs : list byte) :
  length bs = 8%nat -> NetToHost64 (uint64_of_bytes bs) = decode_be bs.
Proof.
  intros Hl. unfold NetToHost64, uint64_of_bytes, bytes_of_uint64.
  destruct host_little_endian.
  - by rewrite <- Hl, encode_decode_le.
  - unfold encode_be, decode_be at 2.
    rewrite <- Hl, <- (length_rev bs), encode_decode_le.
    by rewrite rev_involutive.
Qed.

Lemma uint64_of_zeros (n : nat) : uint64_of_bytes (replicate n Byte.x00) = 0.
Proof.
  assert (forall k, decode_le (replicate k Byte.x00) = 0) as Hz.
  { induction k as [|k IH]; [done|]. cbn [replicate decode_le].
    rewrite IH. done. }
  unfold uint64_of_bytes, decode_be. destruct host_little_endian; [done|].
  replace (rev (replicate n Byte.x00)) with (replicate n Byte.x00); [done|].
  induction n as [|n IH]; [done|]. cbn [replicate rev]. rewrite <- IH.
  clear. induction n as [|n IH]; [done|]. cbn. by rewrite <- IH.
Qed.

(** For eight bytes and a default length of eight, the formula is the
    big-endian reading of the bytes. *)
Lemma hash_formula_8 (bs : list byte) :
  kQuicDefaultConnectionIdLength = 8 -> length bs = 8%nat ->
  hash_formula 8 bs = decode_be bs.
Proof.
  intros Hk Hl. unfold hash_formula, zero_padded. rewrite Hk, Hl.
  change (24 - 8)%nat with 16%nat.
  rewrite drop_0, take_app_length' by done.
  rewrite drop_app_length' by done.
  change (8 * 2)%nat with (8 + 8)%nat.
  rewrite <- drop_drop, drop_app_length' by done.
  change (take 8 (replicate 16 Byte.x00)) with (replicate 8 Byte.x00).
  change (take 8 (drop 8 (replicate 16 Byte.x00)))
    with (replicate 8 Byte.x00).
  rewrite uint64_of_zeros. change (Z.lxor 8 8) with 0.
  rewrite Z.lxor_0_l, !Z.lxor_0_r. by apply NetToHost64_of_bytes.
Qed.

(** ** Rendering *)

Lemma ToString_spec (this : QuicConnectionId) (w : world) :
  well_formed w this = true ->
  ToString this w
  = Ok ((if length_ this =? 0 then "0"%string
         else hex_of_bytes (bytes this w)), w).
Proof.
  intros Hwf. destruct (data_readable _ _ Hwf) as (d & Hd & Hl).
  destruct (well_formed_inv _ _ Hwf) as (_ & _ & H3 & _).
  unfold ToString, IsEmpty. destruct (length_ this =? 0); [done|].
  unfold bind. rewrite Hd. unfold lift, HexEncode.
  assert ((0 <=? length_ this) && (length_ this <=? Z.of_nat (length d))
          = true) as -> by (rewrite andb_true_iff; lia).
  by rewrite (bytes_data _ _ _ Hd).
Qed.

Lemma hex_of_bytes_length (bs : list byte) :
  String.length (hex_of_bytes bs) = (2 * length bs)%nat.
Proof. induction bs as [|b bs IH]; [done|]. cbn. rewrite IH. lia. Qed.

Lemma hex_digit_lowercase (n : Z) :
  0 <= n < 16 -> In (hex_digit n) (list_ascii_of_string lowercase_hex_digits).
Proof.
  intros Hn. unfold hex_digit. apply nth_In.
  change (length (list_ascii_of_string lowercase_hex_digits)) with 16%nat.
  lia.
Qed.

Lemma hex_of_bytes_lowercase (bs : list byte) :
  Forall (fun c => In c (list_ascii_of_string lowercase_hex_digits))
         (list_ascii_of_string (hex_of_bytes bs)).
Proof.
  induction bs as [|b bs IH]; [constructor|].
  pose proof (Z_of_byte_range b) as Hb. cbn [hex_of_bytes list_ascii_of_string].
  constructor; [|constructor; [|done]]; apply hex_digit_lowercase.
  - split; [apply Z.div_pos; lia | apply Z.div_lt_upper_bound; lia].
  - apply Z.mod_pos_bound. lia.
Qed.

(** ** The specification's claims *)

(** C1. [set_length] on an identifier of length L1 with a new length L2
    within the maximum returns, leaves [length()] equal to L2 and the
    first min(L1, L2) bytes at [data()] as they were, whichever storage the
    identifier starts in and ends in when the flag is on; with the flag
    off nothing but the length changes.  The allocator must be able to
    serve the block a move to the heap needs. *)
Theorem set_length_preserves_prefix
    (this : QuicConnectionId) (L2 : Z) (w : world) :
  well_formed w this = true ->
  0 <= L2 <= kQuicMaxConnectionIdLength ->
  can_hold w L2 = true ->
  exists this' w',
    set_length this L2 w = Ok (this', w')
    /\ QuicConnectionId_length this' = L2
    /\ well_formed w' this' = true
    /\ take (Z.to_nat (Z.min (QuicConnectionId_length this) L2))
            (bytes this' w')
       = take (Z.to_nat (Z.min (QuicConnectionId_length this) L2))
              (bytes this w)
    /\ (quic_use_allocated_connection_ids w = false ->
        w' = w /\ this' = with_length_ this L2).
Proof.
  intros Hwf HL Hmem.
  destruct (set_length_spec this L2 w Hwf HL Hmem)
    as (this' & w' & Hrun & Hlen & Hwf' & Hpre & _ & Hoff).
  exists this', w'. unfold QuicConnectionId_length.
  repeat (split; [done|]). done.
Qed.

(** C4. [x < y] holds exactly when [x] is shorter than [y], or they have
    one length and the bytes of [x] come before those of [y] in the
    unsigned lexicographic order; so an identifier of length 3 is below
    every identifier of length 5. *)
Theorem operator_lt_length_then_bytes (x y : QuicConnectionId) (w : world) :
  well_formed w x = true -> well_formed w y = true ->
  exists b,
    operator_lt x y w = Ok (b, w)
    /\ (b = true <->
        QuicConnectionId_length x < QuicConnectionId_length y
        \/ (QuicConnectionId_length x = QuicConnectionId_length y
            /\ lex_lt (bytes x w) (bytes y w)))
    /\ (QuicConnectionId_length x = 3 -> QuicConnectionId_length y = 5 ->
        b = true).
Proof.
  intros Hx Hy. eexists. split; [by apply operator_lt_spec|].
  unfold QuicConnectionId_length.
  pose proof (bytes_length _ _ Hx) as Lx.
  pose proof (bytes_length _ _ Hy) as Ly.
  split.
  - rewrite orb_true_iff, andb_true_iff, Z.ltb_lt, Z.eqb_eq, Z.ltb_lt.
    split.
    + intros [H | [E H]]; [by left | right]. split; [done|].
      apply memcmp_bytes_lt; [lia | done].
    + intros [H | [E H]]; [by left | right]. split; [done|].
      apply memcmp_bytes_lt; [lia | done].
  - intros -> ->. done.
Qed.

(** C5. [x == y] holds exactly when the lengths are equal and the bytes
    are equal, whatever storage and whatever world holds the two
    identifiers; the relation is reflexive, symmetric and transitive. *)
Theorem operator_eq_length_and_bytes
    (x y z : QuicConnectionId) (w : world) :
  well_formed w x = true -> well_formed w y = true ->
  well_formed w z = true ->
  exists b,
    operator_eq x y w = Ok (b, w)
    /\ (b = true <->
        QuicConnectionId_length x = QuicConnectionId_length y
        /\ bytes x w = bytes y w)
    /\ (forall (x' y' : QuicConnectionId) (w' : world),
          well_formed w' x' = true -> well_formed w' y' = true ->
          QuicConnectionId_length x' = QuicConnectionId_length x ->
          bytes x' w' = bytes x w ->
          QuicConnectionId_length y' = QuicConnectionId_length y ->
          bytes y' w' = bytes y w ->
          operator_eq x' y' w' = Ok (b, w'))
    /\ operator_eq x x w = Ok (true, w)
    /\ operator_eq y x w = Ok (b, w)
    /\ (b = true -> operator_eq y z w = Ok (true, w) ->
        operator_eq x z w = Ok (true, w)).
Proof.
  intros Hx Hy Hz. unfold QuicConnectionId_length.
  pose proof (bytes_length _ _ Hx) as Lx.
  pose proof (bytes_length _ _ Hy) as Ly.
  pose proof (bytes_length _ _ Hz) as Lz.
  eexists. split; [by apply operator_eq_spec|].
  split.
  { rewrite andb_true_iff, !Z.eqb_eq. split.
    - intros [E H]. split; [done|]. apply memcmp_bytes_eq; [lia | done].
    - intros [E H]. split; [done|]. apply memcmp_bytes_eq; [lia | done]. }
  split.
  { intros x' y' w' Hx' Hy' E1 E2 E3 E4.
    rewrite operator_eq_spec by done. by rewrite E1, E2, E3, E4. }
  split.
  { rewrite operator_eq_spec by done. rewrite Z.eqb_refl.
    by rewrite (proj2 (memcmp_bytes_eq (bytes x w) (bytes x w) eq_refl)). }
  split.
  { rewrite operator_eq_spec by done.
    rewrite (memcmp_bytes_swap (bytes x w) (bytes y w)).
    rewrite (Z.eqb_sym (length_ y)). do 2 f_equal.
    destruct (memcmp_bytes (bytes x w) (bytes y w) =? 0) eqn:E; lia. }
  rewrite !operator_eq_spec by done. intros Hb [= H].
  rewrite andb_true_iff, !Z.eqb_eq in Hb, H.
  destruct Hb as [E1 H1], H as [E2 H2].
  apply memcmp_bytes_eq in H1; [|lia]. apply memcmp_bytes_eq in H2; [|lia].
  rewrite H1, H2, E1, E2, Z.eqb_refl.
  by rewrite (proj2 (memcmp_bytes_eq (bytes z w) (bytes z w) eq_refl)).
Qed.

(** C6. Constructing an identifier from a run of bytes [b] no longer than
    the maximum, with requested length [len(b)], returns an identifier of
    that length whose [data()] holds exactly [b], with the flag off and
    with the flag on (in [data_short_] or in a heap block, which the
    allocator must be able to serve). *)
Theorem construct_holds_bytes (b : list byte) (w : world) :
  Z.of_nat (length b) <= kQuicMaxConnectionIdLength ->
  can_hold w (Z.of_nat (length b)) = true ->
  exists this w',
    QuicConnectionId_ctor b (Z.of_nat (length b)) w = Ok (this, w')
    /\ QuicConnectionId_length this = Z.of_nat (length b)
    /\ bytes this w' = b
    /\ well_formed w' this = true.
Proof.
  intros Hb Hmem.
  assert (Z.min (Z.of_nat (length b)) kQuicMaxConnectionIdLength
          = Z.of_nat (length b)) as Hmin by lia.
  destruct (QuicConnectionId_ctor_spec b (Z.of_nat (length b)) w)
    as (this & w' & Hrun & Hlen & Hbytes & Hwf & _ & _);
    rewrite ?Hmin; try done; try lia.
  exists this, w'. unfold QuicConnectionId_length.
  rewrite Hmin in Hlen, Hbytes. rewrite Nat2Z.id, firstn_all in Hbytes.
  repeat (split; [done|]). done.
Qed.

(** C7. A construction request with a length above the maximum returns an
    identifier all the same: a diagnostic is written, the length is the
    maximum, and the identifier holds the first maximum-many bytes of the
    buffer. *)
Theorem construct_oversize_clamps (d : list byte) (n : Z) (w : world) :
  kQuicMaxConnectionIdLength < n <= 255 ->
  kQuicMaxConnectionIdLength <= Z.of_nat (length d) ->
  can_hold w kQuicMaxConnectionIdLength = true ->
  exists this w',
    QuicConnectionId_ctor d n w = Ok (this, w')
    /\ QuicConnectionId_length this = kQuicMaxConnectionIdLength
    /\ bytes this w' = take (Z.to_nat kQuicMaxConnectionIdLength) d
    /\ log w' = oversize_message n :: log w.
Proof.
  intros Hn Hd Hmem.
  assert (Z.min n kQuicMaxConnectionIdLength = kQuicMaxConnectionIdLength)
    as Hmin by lia.
  destruct (QuicConnectionId_ctor_spec d n w)
    as (this & w' & Hrun & Hlen & Hbytes & _ & _ & Hlog);
    rewrite ?Hmin; try done; try lia.
  exists this, w'. unfold QuicConnectionId_length.
  rewrite Hmin in Hlen, Hbytes.
  assert ((kQuicMaxConnectionIdLength <? n) = true) as E by lia.
  rewrite E in Hlog. repeat (split; [done|]). done.
Qed.

(** C9. The hash of a copy is the hash of the original, and two
    identifiers with one length and the same bytes have one hash, in
    whatever worlds they live (flag off or on) and in whatever storage. *)
Theorem Hash_depends_on_length_and_bytes
    (x : QuicConnectionId) (w : world) :
  well_formed w x = true ->
  (forall (x2 : QuicConnectionId) (w2 : world),
     well_formed w2 x2 = true ->
     QuicConnectionId_length x2 = QuicConnectionId_length x ->
     bytes x2 w2 = bytes x w ->
     exists h, Hash x w = Ok (h, w) /\ Hash x2 w2 = Ok (h, w2))
  /\ (can_hold w (QuicConnectionId_length x) = true ->
      exists x' w' h,
        QuicConnectionId_copy x w = Ok (x', w')
        /\ Hash x w = Ok (h, w) /\ Hash x' w' = Ok (h, w')).
Proof.
  intros Hx. unfold QuicConnectionId_length. split.
  - intros x2 w2 Hx2 El Eb. eexists. split; [by apply Hash_spec|].
    rewrite Hash_spec by done. by rewrite El, Eb.
  - intros Hmem.
    destruct (data_readable _ _ Hx) as (d & Hd & Hl).
    destruct (well_formed_inv _ _ Hx) as (_ & _ & H3 & _).
    assert (Z.min (length_ x) kQuicMaxConnectionIdLength = length_ x)
      as Hmin by lia.
    destruct (QuicConnectionId_ctor_spec d (length_ x) w)
      as (x' & w' & Hrun & Hlen & Hbytes & Hwf & _ & _);
      rewrite ?Hmin; try done; try lia.
    rewrite Hmin in Hlen, Hbytes.
    exists x', w'. eexists.
    split; [|split; [by apply Hash_spec|]].
    + unfold QuicConnectionId_copy, bind, QuicConnectionId_length.
      by rewrite Hd.
    + rewrite Hash_spec by done.
      by rewrite Hlen, Hbytes, (bytes_data _ _ _ Hd).
Qed.

(** C10. Of [x < y], [y < x] and [x == y] exactly one holds, [<] is
    transitive, and [x != y] is the negation of [x == y]. *)
Theorem comparison_trichotomy (x y z : QuicConnectionId) (w : world) :
  well_formed w x = true -> well_formed w y = true ->
  well_formed w z = true ->
  exists lt gt eq,
    operator_lt x y w = Ok (lt, w)
    /\ operator_lt y x w = Ok (gt, w)
    /\ operator_eq x y w = Ok (eq, w)
    /\ ((lt = true /\ gt = false /\ eq = false)
        \/ (lt = false /\ gt = true /\ eq = false)
        \/ (lt = false /\ gt = false /\ eq = true))
    /\ operator_ne x y w = Ok (negb eq, w)
    /\ (lt = true -> operator_lt y z w = Ok (true, w) ->
        operator_lt x z w = Ok (true, w)).
Proof.
  intros Hx Hy Hz.
  pose proof (bytes_length _ _ Hx) as Lx.
  pose proof (bytes_length _ _ Hy) as Ly.
  pose proof (bytes_length _ _ Hz) as Lz.
  do 3 eexists.
  split; [by apply operator_lt_spec|].
  split; [by apply operator_lt_spec|].
  split; [by apply operator_eq_spec|].
  pose proof (memcmp_bytes_swap (bytes x w) (bytes y w)) as Hswap.
  split; [|split].
  - rewrite Hswap.
    destruct (Z.lt_trichotomy (length_ x) (length_ y)) as [H | [H | H]];
      destruct (Z.lt_trichotomy (memcmp_bytes (bytes x w) (bytes y w)) 0)
        as [C | [C | C]];
      repeat match goal with
             | |- context [?a <? ?b] =>
                 let E := fresh in destruct (Z.ltb_spec a b) as [E | E]
             | |- context [?a =? ?b] =>
                 let E := fresh in destruct (Z.eqb_spec a b) as [E | E]
             end; cbn; try lia; tauto.
  - unfold operator_ne, bind. rewrite operator_eq_spec by done.
    unfold ret. rewrite Hswap, (Z.eqb_sym (length_ y)). do 3 f_equal.
    destruct (memcmp_bytes (bytes x w) (bytes y w) =? 0) eqn:E; lia.
  - rewrite !operator_lt_spec by done. intros H1 [= H2].
    rewrite orb_true_iff, andb_true_iff, !Z.ltb_lt, Z.eqb_eq in H1, H2.
    do 2 f_equal.
    rewrite orb_true_iff, andb_true_iff, !Z.ltb_lt, Z.eqb_eq.
    destruct H1 as [H1 | [E1 H1]], H2 as [H2 | [E2 H2]];
      try (left; lia).
    right. split; [lia|].
    apply memcmp_bytes_lt; [lia|].
    apply memcmp_bytes_lt in H1; [|lia]. apply memcmp_bytes_lt in H2; [|lia].
    by eapply lex_lt_trans.
Qed.

(** C3. Where [size_t] has at least 64 bits, [Hash()] is the formula of
    the specification: the bytes zero-padded to three 64-bit words, the
    words combined by exclusive or with the length and with the default
    length, the result read as a big-endian value.  With a default length
    of eight, the identifier built from the bytes 0x01 .. 0x08 hashes to
    the big-endian reading of those bytes, 0x0102030405060708, on a host
    of either byte order. *)
Theorem Hash_matches_formula (this : QuicConnectionId) (w : world) :
  64 <= size_t_bits ->
  well_formed w this = true ->
  Hash this w
  = Ok (hash_formula (QuicConnectionId_length this) (bytes this w), w)
  /\ (kQuicDefaultConnectionIdLength = 8 ->
      8 <= kQuicMaxConnectionIdLength ->
      forall w0 : world,
        can_hold w0 8 = true ->
        exists id w1,
          QuicConnectionId_ctor one_to_eight 8 w0 = Ok (id, w1)
          /\ Hash id w1 = Ok (decode_be one_to_eight, w1)
          /\ decode_be one_to_eight = 0x0102030405060708).
Proof.
  intros Hbits Hwf.
  assert (forall v, to_size_t (NetToHost64 v) = NetToHost64 v) as Hsize.
  { intros v. unfold to_size_t. pose proof (NetToHost64_range v).
    assert (2 ^ 64 <= 2 ^ size_t_bits) by (apply Z.pow_le_mono_r; lia).
    apply Z.mod_small. lia. }
  split.
  - rewrite Hash_spec by done. unfold hash_formula at 1. by rewrite Hsize.
  - intros Hk Hmax w0 Hmem.
    destruct (QuicConnectionId_ctor_spec one_to_eight 8 w0)
      as (id & w1 & Hrun & Hlen & Hbytes & Hwf1 & _ & _);
      try (cbn; lia).
    { by replace (Z.min 8 kQuicMaxConnectionIdLength) with 8 by lia. }
    replace (Z.min 8 kQuicMaxConnectionIdLength) with 8 in * by lia.
    exists id, w1. split; [done|]. split; [|done].
    rewrite Hash_spec by done. rewrite Hlen, Hbytes.
    change (take (Z.to_nat 8) one_to_eight) with one_to_eight.
    unfold hash_formula at 1. rewrite Hsize.
    change (NetToHost64 _) with (hash_formula 8 one_to_eight).
    by rewrite hash_formula_8.
Qed.

(** C8. [ToString()] of an empty identifier is the one character "0"; of
    any other identifier it is the hexadecimal encoding of its [length()]
    bytes, two lowercase digits per byte and nothing between them; the
    identifier built from the bytes 0x01 .. 0x08 renders as
    "0102030405060708". *)
Theorem ToString_renders_hex (this : QuicConnectionId) (w : world) :
  well_formed w this = true ->
  (QuicConnectionId_length this = 0 -> ToString this w = Ok ("0"%string, w))
  /\ (QuicConnectionId_length this <> 0 ->
      ToString this w = Ok (hex_of_bytes (bytes this w), w)
      /\ Z.of_nat (String.length (hex_of_bytes (bytes this w)))
         = 2 * QuicConnectionId_length this
      /\ Forall (fun c => In c (list_ascii_of_string lowercase_hex_digits))
                (list_ascii_of_string (hex_of_bytes (bytes this w))))
  /\ (8 <= kQuicMaxConnectionIdLength ->
      forall w0 : world,
        can_hold w0 8 = true ->
        exists id w1,
          QuicConnectionId_ctor one_to_eight 8 w0 = Ok (id, w1)
          /\ ToString id w1 = Ok ("0102030405060708"%string, w1)).
Proof.
  intros Hwf. unfold QuicConnectionId_length.
  pose proof (ToString_spec _ _ Hwf) as Hs.
  pose proof (bytes_length _ _ Hwf) as Hl.
  split; [|split].
  - intros E. by rewrite Hs, E.
  - intros E. assert ((length_ this =? 0) = false) as E' by lia.
    rewrite Hs, E'. split; [done|].
    split; [rewrite hex_of_bytes_length; lia | apply hex_of_bytes_lowercase].
  - intros Hmax w0 Hmem.
    destruct (QuicConnectionId_ctor_spec one_to_eight 8 w0)
      as (id & w1 & Hrun & Hlen & Hbytes & Hwf1 & _ & _);
      try (cbn; lia).
    { by replace (Z.min 8 kQuicMaxConnectionIdLength) with 8 by lia. }
    replace (Z.min 8 kQuicMaxConnectionIdLength) with 8 in * by lia.
    exists id, w1. split; [done|].
    rewrite ToString_spec by done. by rewrite Hlen, Hbytes.
Qed.

(** C2. The constructor clamps its length to the maximum, but
    [set_length] stores whatever [uint8_t] it is given: with the flag off
    a call with a length above the maximum returns an identifier whose
    [length()] exceeds the maximum and the size of [data_], and [Hash()]
    on it reads outside [data_]. *)
Theorem set_length_exceeds_maximum
    (this : QuicConnectionId) (n : Z) (w : world) :
  quic_use_allocated_connection_ids w = false ->
  Z.of_nat (length (data_ this)) = kQuicMaxConnectionIdLength ->
  kQuicMaxConnectionIdLength < n ->
  exists this',
    set_length this n w = Ok (this', w)
    /\ kQuicMaxConnectionIdLength < QuicConnectionId_length this'
    /\ Hash this' w = OutOfBounds.
Proof.
  intros Hf Hd Hn. exists (with_length_ this n).
  unfold set_length, Hash, data, bind, GetQuicRestartFlag, ret, lift.
  rewrite Hf. cbn [negb]. split; [done|]. split; [done|].
  fields. unfold memcpy.
  assert ((n <=? Z.of_nat (length (data_ this))) = false) as -> by lia.
  by rewrite andb_false_r.
Qed.

(** ** Ownership of heap blocks *)

Lemma on_heap_block (w : world) (this : QuicConnectionId) :
  well_formed w this = true -> on_heap w this = true ->
  exists a blk, data_long_ this = Some a /\ heap w !! a = Some blk
                /\ Z.of_nat (length blk) = length_ this.
Proof.
  intros Hwf Hon. destruct (well_formed_inv _ _ Hwf) as (_ & _ & _ & H4).
  unfold on_heap in Hon. rewrite andb_true_iff in Hon.
  destruct Hon as [Hf Hs]. apply H4; [done | lia].
Qed.

Lemma shares_block_false (w : world) (a b : QuicConnectionId) :
  shares_block w a b = false <->
  (on_heap w a = true -> on_heap w b = true -> data_long_ a <> data_long_ b).
Proof.
  unfold shares_block. destruct (on_heap w a), (on_heap w b); cbn;
    try (split; [done | intros; done]).
  rewrite bool_decide_eq_false. split; [by intros H _ _ | by intros H; apply H].
Qed.

(** An identifier stays well-formed, with the same bytes, in any world with
    the same flag that still holds its block. *)
Lemma well_formed_frame (w w' : world) (y : QuicConnectionId) :
  well_formed w y = true ->
  quic_use_allocated_connection_ids w' = quic_use_allocated_connection_ids w ->
  (on_heap w y = true ->
   forall a, data_long_ y = Some a -> heap w' !! a = heap w !! a) ->
  well_formed w' y = true /\ bytes y w' = bytes y w.
Proof.
  intros Hwf Hflag Hsame.
  destruct (well_formed_inv _ _ Hwf) as (H1 & H2 & H3 & H4).
  unfold on_heap in Hsame. split.
  - apply well_formed_intro; try done. rewrite Hflag. intros Hf Hs.
    destruct (H4 Hf Hs) as (a & blk & Ha & Hb & Hl). exists a, blk.
    split; [done|]. split; [|done]. rewrite Hsame; try done.
    rewrite Hf. cbn. lia.
  - unfold bytes, data, bind, GetQuicRestartFlag, ret. rewrite Hflag.
    destruct (quic_use_allocated_connection_ids w) eqn:Hf; cbn [negb];
      [|done].
    destruct (length_ y <=? sizeof_data_short_) eqn:Es; [done|].
    destruct (H4 eq_refl) as (a & blk & Ha & Hb & Hl); [lia|].
    rewrite Ha. unfold deref. rewrite Hsame; try done.
    + by rewrite Hb.
    + cbn. lia.
Qed.

(** When a world is another plus the block of one identifier, the blocks of
    the other world are still there, and none of them is that block. *)
Lemma rest_of_heap_frame (w w' : world) (x : QuicConnectionId)
    (a : positive) (blk : list byte) :
  rest_of_heap w' x = heap w -> heap w !! a = Some blk ->
  heap w' !! a = Some blk /\ (on_heap w' x = true -> data_long_ x <> Some a).
Proof.
  unfold rest_of_heap. intros Hrest Ha.
  destruct (on_heap w' x); [|by rewrite Hrest].
  destruct (data_long_ x) as [p|]; [|by rewrite Hrest].
  rewrite <- Hrest in Ha. apply lookup_delete_Some in Ha as [Hne Ha].
  split; [done | congruence].
Qed.

Lemma fresh_not_live (h : gmap positive (list byte)) :
  h !! fresh (dom h) = None.
Proof. apply not_elem_of_dom_1, is_fresh. Qed.

(** What the constructor leaves in the heap is the heap it found plus, at
    most, the block of the identifier it built. *)
Lemma QuicConnectionId_ctor_rest (d : list byte) (n : Z) (w w' : world)
    (this : QuicConnectionId) :
  QuicConnectionId_ctor d n w = Ok (this, w') ->
  rest_of_heap w' this = heap w /\ budget w' this = avail w
  /\ quic_use_allocated_connection_ids w'
     = quic_use_allocated_connection_ids w.
Proof.
  unfold QuicConnectionId_ctor. intros Hrun.
  set (m := if kQuicMaxConnectionIdLength <? n
            then kQuicMaxConnectionIdLength else n) in *.
  assert (exists w1,
    (if kQuicMaxConnectionIdLength <? n
     then run QUIC_BUG (oversize_message n) in
          ret kQuicMaxConnectionIdLength
     else ret n) w = Ok (m, w1)
    /\ quic_use_allocated_connection_ids w1
       = quic_use_allocated_connection_ids w
    /\ heap w1 = heap w /\ avail w1 = avail w)
    as (w1 & Hclamp & Hflag & Hheap & Havail).
  { subst m. destruct (kQuicMaxConnectionIdLength <? n).
    - eexists. unfold bind, QUIC_BUG, ret. by cbn.
    - by exists w. }
  unfold bind at 1 in Hrun. rewrite Hclamp in Hrun.
  rewrite <- Hflag, <- Hheap, <- Havail. clear Hclamp Hflag Hheap Havail.
  unfold rest_of_heap, budget, on_heap. fields.
  destruct (m =? 0) eqn:E0.
  { unfold ret in Hrun. injection Hrun as <- <-. fields.
    assert ((sizeof_data_short_ <? m) = false) as -> by lia.
    by rewrite andb_false_r. }
  unfold bind, GetQuicRestartFlag in Hrun.
  destruct (quic_use_allocated_connection_ids w1) eqn:Hf; cbn [negb] in Hrun.
  2:{ unfold lift in Hrun. destruct (memcpy _ d m) as [t| |]; try done.
      unfold ret in Hrun. injection Hrun as <- <-. by rewrite Hf. }
  destruct (m <=? sizeof_data_short_) eqn:Es.
  { unfold lift in Hrun. destruct (memcpy _ d m) as [t| |]; try done.
    unfold ret in Hrun. injection Hrun as <- <-. fields. rewrite Hf.
    assert ((sizeof_data_short_ <? m) = false) as -> by lia. done. }
  unfold malloc in Hrun. destruct (m <=? avail w1).
  2:{ by unfold CHECK_NE in Hrun; fields; rewrite decide_True in Hrun. }
  unfold CHECK_NE in Hrun. fields. rewrite decide_False in Hrun by done.
  unfold memcpy_heap, bind, deref, lift, poke in Hrun. fields.
  rewrite lookup_insert_eq in Hrun.
  destruct (memcpy _ d m) as [t| |]; try done.
  unfold ret in Hrun. injection Hrun as <- <-. fields. rewrite Hf.
  assert ((sizeof_data_short_ <? m) = true) as -> by lia. cbn [andb].
  rewrite insert_insert_eq, delete_insert_id by apply fresh_not_live.
  repeat split; try done; lia.
Qed.

(** [set_length] on a well-formed identifier changes nothing in the heap but
    the identifier's own block, and gives back to the allocator what it
    takes. *)
Lemma set_length_rest (this this' : QuicConnectionId) (n : Z) (w w' : world) :
  well_formed w this = true ->
  set_length this n w = Ok (this', w') ->
  rest_of_heap w' this' = rest_of_heap w this
  /\ budget w' this' = budget w this
  /\ log w' = log w.
Proof.
  intros Hwf Hrun.
  destruct (well_formed_inv _ _ Hwf) as (H1 & H2 & H3 & H4).
  unfold rest_of_heap, budget, on_heap.
  unfold set_length, bind, GetQuicRestartFlag in Hrun.
  destruct (quic_use_allocated_connection_ids w) eqn:Hf.
  2:{ unfold ret in Hrun. injection Hrun as <- <-. by rewrite Hf. }
  cbn [andb].
  destruct (sizeof_data_short_ <? n) eqn:En.
  - destruct (length_ this <=? sizeof_data_short_) eqn:El.
    + assert ((sizeof_data_short_ <? length_ this) = false) as -> by lia.
      unfold lift in Hrun.
      destruct (memcpy _ (data_short_ this) _) as [t| |]; try done.
      unfold malloc in Hrun. destruct (n <=? avail w).
      2:{ by unfold CHECK_NE in Hrun; fields; rewrite decide_True in Hrun. }
      unfold CHECK_NE in Hrun. fields. rewrite decide_False in Hrun by done.
      unfold memcpy_heap, bind, deref, lift, poke in Hrun. fields.
      rewrite lookup_insert_eq in Hrun.
      destruct (memcpy _ t _) as [t'| |]; try done.
      unfold ret in Hrun. injection Hrun as <- <-. fields. rewrite Hf, En.
      cbn [andb].
      rewrite insert_insert_eq, delete_insert_id by apply fresh_not_live.
      repeat split; try done; lia.
    + assert ((sizeof_data_short_ <? length_ this) = true) as -> by lia.
      destruct H4 as (a & blk & Ha & Hb & Hl); [done | lia |].
      rewrite Ha in *. unfold realloc in Hrun. rewrite Hb in Hrun.
      destruct (n <=? avail w + Z.of_nat (length blk)).
      2:{ by unfold CHECK_NE in Hrun; rewrite decide_True in Hrun. }
      unfold CHECK_NE in Hrun. rewrite decide_False in Hrun by done.
      unfold ret in Hrun. injection Hrun as <- <-. fields. rewrite Hf, En.
      cbn [andb].
      rewrite delete_insert_id by apply fresh_not_live.
      repeat split; try done; lia.
  - destruct (sizeof_data_short_ <? length_ this) eqn:El.
    + destruct H4 as (a & blk & Ha & Hb & Hl); [done | lia |].
      rewrite Ha in *. unfold deref at 1 in Hrun. rewrite Hb in Hrun.
      unfold lift, free in Hrun.
      destruct (memcpy _ blk _) as [t| |]; try done. fields.
      rewrite Hb in Hrun.
      destruct (memcpy _ t _) as [t'| |]; try done.
      unfold ret in Hrun. injection Hrun as <- <-. fields. rewrite Hf, En.
      cbn [andb]. repeat split; try done; lia.
    + unfold ret in Hrun. injection Hrun as <- <-. fields. rewrite Hf, En.
      done.
Qed.

(** The destructor of a well-formed identifier returns, and gives the
    identifier's block, if it has one, back to the allocator. *)
Lemma QuicConnectionId_dtor_spec (this : QuicConnectionId) (w : world) :
  well_formed w this = true ->
  exists w',
    QuicConnectionId_dtor this w
    = Ok ((if on_heap w this then with_data_long_ this nullptr else this), w')
    /\ heap w' = rest_of_heap w this
    /\ avail w' = budget w this
    /\ quic_use_allocated_connection_ids w'
       = quic_use_allocated_connection_ids w
    /\ log w' = log w.
Proof.
  intros Hwf. destruct (well_formed_inv _ _ Hwf) as (H1 & H2 & H3 & H4).
  unfold QuicConnectionId_dtor, rest_of_heap, budget, on_heap, bind,
    GetQuicRestartFlag.
  destruct (quic_use_allocated_connection_ids w) eqn:Hf; cbn [negb andb].
  2:{ exists w. by unfold ret. }
  destruct (sizeof_data_short_ <? length_ this) eqn:El.
  2:{ exists w. by unfold ret. }
  destruct H4 as (a & blk & Ha & Hb & Hl); [done | lia |].
  rewrite Ha. unfold free. rewrite Hb. unfold ret. eexists.
  split; [done|]. fields. repeat split; try done; lia.
Qed.

(** ** Further properties of the member functions *)

Lemma bytes_of_empty (this : QuicConnectionId) (w : world) :
  length_ this = 0 -> bytes this w = [].
Proof.
  intros E. unfold bytes. rewrite E.
  destruct (data this w) as [[d ?]| |]; by rewrite ?take_0.
Qed.

Lemma to_size_t_NetToHost64 (v : Z) :
  64 <= size_t_bits -> to_size_t (NetToHost64 v) = NetToHost64 v.
Proof.
  intros Hbits. unfold to_size_t. pose proof (NetToHost64_range v).
  assert (2 ^ 64 <= 2 ^ size_t_bits) by (apply Z.pow_le_mono_r; lia).
  apply Z.mod_small. lia.
Qed.

(** X1. The default constructor and [EmptyQuicConnectionId] return in every
    world, also one whose allocator has nothing left, and leave the world as
    it was: no block is allocated and no diagnostic written.  The identifier
    is empty, renders as "0", and its hash is fixed by the default length
    alone. *)
Theorem EmptyQuicConnectionId_is_empty (w : world) :
  exists id,
    EmptyQuicConnectionId w = Ok (id, w)
    /\ QuicConnectionId_default w = Ok (id, w)
    /\ well_formed w id = true
    /\ IsEmpty id = true
    /\ QuicConnectionId_length id = 0
    /\ ToString id w = Ok ("0"%string, w)
    /\ Hash id w
       = Ok (to_size_t (NetToHost64 kQuicDefaultConnectionIdLength), w).
Proof.
  exists (with_length_ uninitialized 0).
  assert (well_formed w (with_length_ uninitialized 0) = true) as Hwf.
  { apply well_formed_intro; fields; rewrite ?junk_length; lia. }
  assert (QuicConnectionId_default w = Ok (with_length_ uninitialized 0, w))
    as Hrun.
  { unfold QuicConnectionId_default, QuicConnectionId_ctor, bind.
    assert ((kQuicMaxConnectionIdLength <? 0) = false) as -> by lia.
    done. }
  split; [done|]. split; [done|]. split; [done|].
  split; [done|]. split; [done|]. split.
  - by rewrite ToString_spec by done.
  - rewrite Hash_spec by done. rewrite bytes_of_empty by done.
    unfold hash_formula, zero_padded. fields.
    change (take 8 (drop (8 * 0) ([] ++ replicate (24 - length []) Byte.x00)))
      with (replicate 8 Byte.x00).
    change (take 8 (drop (8 * 1) ([] ++ replicate (24 - length []) Byte.x00)))
      with (replicate 8 Byte.x00).
    change (take 8 (drop (8 * 2) ([] ++ replicate (24 - length []) Byte.x00)))
      with (replicate 8 Byte.x00).
    by rewrite uint64_of_zeros, !Z.lxor_0_r.
Qed.

(** X2. An empty identifier is the least: no identifier is below it, it is
    below every identifier that is not empty, and it equals exactly the
    empty ones, whatever bytes its storage holds. *)
Theorem empty_is_least (id y : QuicConnectionId) (w : world) :
  well_formed w id = true -> well_formed w y = true ->
  IsEmpty id = true ->
  operator_lt y id w = Ok (false, w)
  /\ operator_lt id y w = Ok (negb (IsEmpty y), w)
  /\ operator_eq id y w = Ok (IsEmpty y, w)
  /\ operator_ne id y w = Ok (negb (IsEmpty y), w).
Proof.
  intros Hid Hy He. unfold IsEmpty in *. apply Z.eqb_eq in He.
  destruct (well_formed_inv _ _ Hy) as (_ & _ & H3 & _).
  pose proof (bytes_of_empty id w He) as Hb.
  assert (length_ y = 0 -> bytes y w = []) as Hby
    by (intros; by apply bytes_of_empty).
  unfold operator_ne, bind.
  rewrite !operator_lt_spec, !operator_eq_spec by done. unfold ret.
  rewrite He, Hb.
  destruct (length_ y =? 0) eqn:E.
  - apply Z.eqb_eq in E. rewrite E, Hby by done. by cbn.
  - assert ((length_ y <? 0) = false) as -> by lia.
    assert ((0 <? length_ y) = true) as -> by lia.
    assert ((0 =? length_ y) = false) as -> by lia. by cbn.
Qed.

(** X3. [operator<] does not tell equal identifiers apart: when [x == y],
    each is below exactly the identifiers the other is below, and above
    exactly the identifiers the other is above. *)
Theorem operator_lt_respects_eq (x y z : QuicConnectionId) (w : world) :
  well_formed w x = true -> well_formed w y = true ->
  well_formed w z = true ->
  operator_eq x y w = Ok (true, w) ->
  operator_lt x z w = operator_lt y z w
  /\ operator_lt z x w = operator_lt z y w
  /\ operator_eq x z w = operator_eq y z w.
Proof.
  intros Hx Hy Hz. rewrite !operator_lt_spec, !operator_eq_spec by done.
  intros [= H]. rewrite andb_true_iff, !Z.eqb_eq in H. destruct H as [E H].
  pose proof (bytes_length _ _ Hx) as Lx.
  pose proof (bytes_length _ _ Hy) as Ly.
  apply memcmp_bytes_eq in H; [|lia]. by rewrite E, H.
Qed.

Lemma decode_le_inj (a b : list byte) :
  length a = length b -> decode_le a = decode_le b -> a = b.
Proof.
  intros Hl H. rewrite <- (encode_decode_le a), <- (encode_decode_le b).
  by rewrite Hl, H.
Qed.

(** X4. With a default length of eight and a [size_t] of at least 64 bits,
    the hash of every identifier of eight bytes is the big-endian reading of
    those bytes, on a host of either byte order; so two identifiers of eight
    bytes with one hash are equal. *)
Theorem Hash_of_eight_bytes (x y : QuicConnectionId) (w : world) :
  64 <= size_t_bits ->
  kQuicDefaultConnectionIdLength = 8 ->
  well_formed w x = true -> well_formed w y = true ->
  QuicConnectionId_length x = 8 -> QuicConnectionId_length y = 8 ->
  Hash x w = Ok (decode_be (bytes x w), w)
  /\ (Hash x w = Hash y w -> operator_eq x y w = Ok (true, w)).
Proof.
  unfold QuicConnectionId_length. intros Hbits Hk Hx Hy Ex Ey.
  pose proof (bytes_length _ _ Hx) as Lx.
  pose proof (bytes_length _ _ Hy) as Ly.
  assert (forall v (Hv : well_formed w v = true), length_ v = 8 ->
            Hash v w = Ok (decode_be (bytes v w), w)) as Hhash.
  { intros v Hv Ev. pose proof (bytes_length _ _ Hv) as Lv.
    rewrite Hash_spec by done. unfold hash_formula at 1.
    rewrite to_size_t_NetToHost64 by done.
    change (NetToHost64 _) with (hash_formula (length_ v) (bytes v w)).
    rewrite Ev, hash_formula_8; [done | done | lia]. }
  split; [by apply Hhash|].
  rewrite !Hhash by done. intros [= H].
  rewrite operator_eq_spec by done. rewrite Ex, Ey. cbn.
  unfold decode_be in H. apply decode_le_inj in H.
  - apply (f_equal (@rev byte)) in H. rewrite !rev_involutive in H.
    rewrite H. do 2 f_equal.
    assert (memcmp_bytes (bytes y w) (bytes y w) = 0) as ->
      by (by apply memcmp_bytes_eq). done.
  - rewrite !length_rev. lia.
Qed.

Lemma operator_eq_same_bytes (x y : QuicConnectionId) (w : world) :
  well_formed w x = true -> well_formed w y = true ->
  length_ x = length_ y -> bytes x w = bytes y w ->
  operator_eq x y w = Ok (true, w).
Proof.
  intros Hx Hy El Eb. rewrite operator_eq_spec by done.
  rewrite El, Eb, Z.eqb_refl.
  by rewrite (proj2 (memcmp_bytes_eq (bytes y w) (bytes y w) eq_refl)).
Qed.

Lemma mutable_data_writes_aux
    (this : QuicConnectionId) (src : list byte) (w : world) :
  well_formed w this = true ->
  QuicConnectionId_length this <= Z.of_nat (length src) ->
  exists dst this' w',
    mutable_data this w = Ok (dst, w)
    /\ memcpy_to this dst src (QuicConnectionId_length this) w
       = Ok (this', w')
    /\ QuicConnectionId_length this' = QuicConnectionId_length this
    /\ bytes this' w'
       = take (Z.to_nat (QuicConnectionId_length this)) src
    /\ well_formed w' this' = true
    /\ quic_use_allocated_connection_ids w'
       = quic_use_allocated_connection_ids w
    /\ (forall b, (on_heap w this = true -> data_long_ this <> Some b) ->
                  heap w' !! b = heap w !! b).
Proof.
  unfold QuicConnectionId_length. intros Hwf Hsrc.
  destruct (well_formed_inv _ _ Hwf) as (H1 & H2 & H3 & H4).
  unfold mutable_data, bind, GetQuicRestartFlag, ret, on_heap.
  destruct (quic_use_allocated_connection_ids w) eqn:Hf; cbn [negb andb].
  2:{ eexists _, _, w. split; [done|].
      unfold memcpy_to, bind, lift. rewrite memcpy_ok by lia. unfold ret.
      split; [done|]. split; [done|]. split.
      { unfold bytes, data, bind, GetQuicRestartFlag, ret. rewrite Hf.
        fields. cbn [negb]. by rewrite take_memcpy by lia. }
      split; [|done].
      apply well_formed_intro; fields; try lengths. by rewrite Hf. }
  destruct (length_ this <=? sizeof_data_short_) eqn:El.
  { eexists _, _, w. split; [done|].
    unfold memcpy_to, bind, lift. rewrite memcpy_ok by lia. unfold ret.
    split; [done|]. split; [done|]. split.
    { unfold bytes, data, bind, GetQuicRestartFlag, ret. rewrite Hf.
      fields. cbn [negb]. rewrite El. by rewrite take_memcpy by lia. }
    split; [|done].
    apply well_formed_intro; fields; try lengths. }
  destruct H4 as (a & blk & Ha & Hb & Hl); [done | lia |].
  eexists _, _, _. split; [done|].
  unfold memcpy_to, memcpy_heap, bind, deref, lift, poke. rewrite Ha, Hb.
  rewrite memcpy_ok by lia. unfold ret.
  split; [done|]. split; [done|]. split.
  { unfold bytes, data, bind, GetQuicRestartFlag, ret. fields.
    rewrite Hf. cbn [negb]. rewrite El, Ha. unfold deref. fields.
    rewrite lookup_insert_eq. by rewrite take_memcpy by lia. }
  split.
  { apply well_formed_intro; fields; try lia.
    intros _ _. eexists _, _. split; [done|].
    rewrite lookup_insert_eq. split; [done|]. lengths. }
  split; [done|]. fields. intros b Hne.
  assert ((sizeof_data_short_ <? length_ this) = true) as E by lia.
  rewrite E in Hne. apply lookup_insert_ne. intros ->. by apply Hne.
Qed.

Lemma set_length_leaves_others_aux
    (this other : QuicConnectionId) (n : Z) (w : world) :
  well_formed w this = true -> well_formed w other = true ->
  (on_heap w this = true -> on_heap w other = true ->
   data_long_ this <> data_long_ other) ->
  0 <= n <= kQuicMaxConnectionIdLength ->
  can_hold w n = true ->
  exists this' w',
    set_length this n w = Ok (this', w')
    /\ length_ this' = n
    /\ well_formed w' this' = true
    /\ quic_use_allocated_connection_ids w'
       = quic_use_allocated_connection_ids w
    /\ well_formed w' other = true
    /\ bytes other w' = bytes other w
    /\ (on_heap w' this' = true -> on_heap w' other = true ->
        data_long_ this' <> data_long_ other).
Proof.
  intros Hthis Hother Hne Hn Hmem.
  destruct (set_length_spec this n w Hthis Hn Hmem)
    as (this' & w' & Hrun & Hlen & Hwf' & _ & Hflag & _).
  exists this', w'. split; [done|]. split; [done|]. split; [done|].
  split; [done|].
  assert (on_heap w other = true ->
          exists b blk, data_long_ other = Some b /\ heap w !! b = Some blk
            /\ heap w' !! b = Some blk
            /\ (on_heap w' this' = true -> data_long_ this' <> Some b))
    as Hblock.
  { intros Hon.
    destruct (on_heap_block _ _ Hother Hon) as (b & blk & Hb & Hlive & _).
    destruct (set_length_frame this this' n w w' b blk Hrun Hlive)
      as [Hlive' Hfresh].
    - intros Hf Hs E. apply Hne; try done; [|congruence].
      unfold on_heap. rewrite Hf. cbn. lia.
    - exists b, blk. repeat (split; [done|]).
      unfold on_heap. rewrite Hflag, Hlen, andb_true_iff.
      intros [Hf Hs]. apply Hfresh; [done | lia]. }
  destruct (well_formed_frame w w' other Hother Hflag) as [Hwf Hbytes].
  { intros Hon a Ha. destruct (Hblock Hon) as (b & blk & Hb & Hl & Hl' & _).
    assert (a = b) as -> by congruence. by rewrite Hl, Hl'. }
  split; [done|]. split; [done|].
  intros Hon' Hon. assert (on_heap w other = true) as Hon0.
  { unfold on_heap in *. by rewrite <- Hflag. }
  destruct (Hblock Hon0) as (b & blk & Hb & _ & _ & Hfresh).
  rewrite Hb. by apply Hfresh.
Qed.

(** X5. What is written through [mutable_data()] is what [data()] reads:
    copying [length()] bytes to the pointer [mutable_data()] returns makes
    them the identifier's bytes, in whichever storage it lives, and touches
    no block but the identifier's own. *)
Theorem mutable_data_writes_what_data_reads
    (this : QuicConnectionId) (src : list byte) (w : world) :
  well_formed w this = true ->
  QuicConnectionId_length this <= Z.of_nat (length src) ->
  exists dst this' w',
    mutable_data this w = Ok (dst, w)
    /\ memcpy_to this dst src (QuicConnectionId_length this) w
       = Ok (this', w')
    /\ QuicConnectionId_length this' = QuicConnectionId_length this
    /\ bytes this' w'
       = take (Z.to_nat (QuicConnectionId_length this)) src
    /\ well_formed w' this' = true
    /\ (forall b, (on_heap w this = true -> data_long_ this <> Some b) ->
                  heap w' !! b = heap w !! b).
Proof.
  intros Hwf Hsrc.
  destruct (mutable_data_writes_aux this src w Hwf Hsrc)
    as (dst & this' & w' & H1 & H2 & H3 & H4 & H5 & _ & H6).
  exists dst, this', w'. repeat (split; [done|]). done.
Qed.

(** X6. [set_length] on one identifier leaves every other identifier alone:
    an identifier that does not share its heap block stays well-formed and
    keeps its bytes, and the block [set_length] moves its identifier to is
    not the other's. *)
Theorem set_length_leaves_others
    (this other : QuicConnectionId) (n : Z) (w : world) :
  well_formed w this = true -> well_formed w other = true ->
  shares_block w this other = false ->
  0 <= n <= kQuicMaxConnectionIdLength ->
  can_hold w n = true ->
  exists this' w',
    set_length this n w = Ok (this', w')
    /\ well_formed w' other = true
    /\ bytes other w' = bytes other w
    /\ shares_block w' this' other = false.
Proof.
  intros Hthis Hother Hshare Hn Hmem.
  pose proof (proj1 (shares_block_false _ _ _) Hshare) as Hne.
  destruct (set_length_leaves_others_aux this other n w Hthis Hother Hne Hn
              Hmem) as (this' & w' & H1 & _ & _ & _ & H2 & H3 & H4).
  exists this', w'. repeat (split; [done|]). by apply shares_block_false.
Qed.

(** X7. The copy constructor makes a deep copy: the copy is well-formed and
    equal to the original, the original is untouched, and a copy that lives
    on the heap has a block of its own, the only block the heap has
    gained. *)
Theorem copy_is_deep (x : QuicConnectionId) (w : world) :
  well_formed w x = true ->
  can_hold w (QuicConnectionId_length x) = true ->
  exists x' w',
    QuicConnectionId_copy x w = Ok (x', w')
    /\ well_formed w' x' = true
    /\ well_formed w' x = true
    /\ bytes x w' = bytes x w
    /\ operator_eq x' x w' = Ok (true, w')
    /\ shares_block w' x' x = false
    /\ rest_of_heap w' x' = heap w.
Proof.
  unfold QuicConnectionId_length. intros Hx Hmem.
  destruct (data_readable _ _ Hx) as (d & Hd & Hl).
  destruct (well_formed_inv _ _ Hx) as (_ & _ & H3 & _).
  assert (Z.min (length_ x) kQuicMaxConnectionIdLength = length_ x)
    as Hmin by lia.
  destruct (QuicConnectionId_ctor_spec d (length_ x) w)
    as (x' & w' & Hrun & Hlen & Hbytes & Hwf' & Hflag & _);
    rewrite ?Hmin; try done; try lia.
  rewrite Hmin in Hlen, Hbytes.
  destruct (QuicConnectionId_ctor_rest _ _ _ _ _ Hrun) as (Hrest & _ & _).
  destruct (well_formed_frame w w' x Hx Hflag) as [Hwfx Hbx].
  { intros Hon a Ha.
    destruct (on_heap_block _ _ Hx Hon) as (b & blk & Hb & Hlive & _).
    assert (a = b) as -> by congruence.
    destruct (rest_of_heap_frame w w' x' b blk Hrest Hlive) as [Hlive' _].
    by rewrite Hlive, Hlive'. }
  exists x', w'. split.
  { unfold QuicConnectionId_copy, bind, QuicConnectionId_length.
    by rewrite Hd. }
  split; [done|]. split; [done|]. split; [done|]. split.
  { apply operator_eq_same_bytes; try done.
    by rewrite Hbytes, Hbx, (bytes_data _ _ _ Hd). }
  split; [|done]. apply shares_block_false. intros Hon' Hon.
  assert (on_heap w x = true) as Hon0
    by (unfold on_heap in *; by rewrite <- Hflag).
  destruct (on_heap_block _ _ Hx Hon0) as (b & blk & Hb & Hlive & _).
  destruct (rest_of_heap_frame w w' x' b blk Hrest Hlive) as [_ Hfresh].
  rewrite Hb. by apply Hfresh.
Qed.

(** X8. After [this = other], for two well-formed identifiers that do not
    share a heap block, [this == other] holds, [this] has the length and
    the bytes of [other], and [other] is untouched. *)
Theorem operator_assign_makes_equal
    (this other : QuicConnectionId) (w : world) :
  well_formed w this = true -> well_formed w other = true ->
  shares_block w this other = false ->
  can_hold w (QuicConnectionId_length other) = true ->
  exists this' w',
    operator_assign this other w = Ok (this', w')
    /\ well_formed w' this' = true
    /\ well_formed w' other = true
    /\ QuicConnectionId_length this' = QuicConnectionId_length other
    /\ bytes this' w' = bytes other w
    /\ bytes other w' = bytes other w
    /\ operator_eq this' other w' = Ok (true, w').
Proof.
  unfold QuicConnectionId_length. intros Hthis Hother Hshare Hmem.
  pose proof (proj1 (shares_block_false _ _ _) Hshare) as Hne.
  destruct (well_formed_inv _ _ Hother) as (_ & _ & O3 & _).
  destruct (set_length_leaves_others_aux this other (length_ other) w)
    as (this1 & w1 & Hrun & Hlen & Hwf1 & Hflag & Hother1 & Hbytes1 & Hne1);
    try done.
  destruct (data_readable _ _ Hother1) as (d & Hd & Hl).
  destruct (mutable_data_writes_aux this1 d w1 Hwf1)
    as (dst & this' & w' & Hdst & Hwrite & Hlen' & Hbytes' & Hwf' & Hflag'
        & Hframe); [unfold QuicConnectionId_length; lia|].
  unfold QuicConnectionId_length in *.
  destruct (well_formed_frame w1 w' other Hother1 Hflag') as [Hwfo Hbo].
  { intros Hon a Ha. apply Hframe. intros Hon1. rewrite <- Ha.
    by apply Hne1. }
  exists this', w'. split.
  { unfold operator_assign, bind, QuicConnectionId_length.
    by rewrite Hrun, Hdst, Hd. }
  assert (bytes this' w' = bytes other w) as Hsame.
  { by rewrite Hbytes', Hlen, <- Hbytes1, (bytes_data _ _ _ Hd). }
  split; [done|]. split; [done|]. split; [lia|]. split; [done|].
  split; [by rewrite Hbo|].
  apply operator_eq_same_bytes; try done; [lia | by rewrite Hbo, Hbytes1].
Qed.

Lemma QuicConnectionId_ctor_clamp (n : Z) (w : world) :
  exists w1,
    (if kQuicMaxConnectionIdLength <? n
     then run QUIC_BUG (oversize_message n) in ret kQuicMaxConnectionIdLength
     else ret n) w = Ok (Z.min n kQuicMaxConnectionIdLength, w1)
    /\ quic_use_allocated_connection_ids w1
       = quic_use_allocated_connection_ids w
    /\ heap w1 = heap w /\ avail w1 = avail w.
Proof.
  destruct (kQuicMaxConnectionIdLength <? n) eqn:E.
  - eexists. unfold bind, QUIC_BUG, ret; cbn.
    replace (Z.min n kQuicMaxConnectionIdLength)
      with kQuicMaxConnectionIdLength by lia. done.
  - exists w. unfold ret.
    replace (Z.min n kQuicMaxConnectionIdLength) with n by lia. done.
Qed.

(** X9. How the constructor ends, for any buffer and any requested length:
    where the clamped length needs a heap block the allocator cannot serve,
    the [CHECK] fails, before the buffer is read; otherwise a buffer shorter
    than the clamped length is read out of bounds; otherwise the constructor
    returns an identifier of the clamped length. *)
Theorem QuicConnectionId_ctor_outcome (d : list byte) (n : Z) (w : world) :
  0 <= n ->
  if quic_use_allocated_connection_ids w
     && (sizeof_data_short_ <? Z.min n kQuicMaxConnectionIdLength)
     && (avail w <? Z.min n kQuicMaxConnectionIdLength)
  then QuicConnectionId_ctor d n w = CheckFailed
  else if Z.of_nat (length d) <? Z.min n kQuicMaxConnectionIdLength
  then QuicConnectionId_ctor d n w = OutOfBounds
  else exists this w',
         QuicConnectionId_ctor d n w = Ok (this, w')
         /\ QuicConnectionId_length this
            = Z.min n kQuicMaxConnectionIdLength.
Proof.
  intros Hn. set (m := Z.min n kQuicMaxConnectionIdLength).
  assert (0 <= m <= kQuicMaxConnectionIdLength) as Hm by lia.
  destruct (quic_use_allocated_connection_ids w && (sizeof_data_short_ <? m)
            && (avail w <? m)) eqn:Efail.
  { rewrite !andb_true_iff in Efail. destruct Efail as [[Hf Hs] Ha].
    destruct (QuicConnectionId_ctor_clamp n w)
      as (w1 & Hclamp & Hflag & _ & Havail).
    unfold QuicConnectionId_ctor. unfold bind at 1. rewrite Hclamp.
    fold m. fields.
    assert ((m =? 0) = false) as -> by lia.
    unfold bind, GetQuicRestartFlag. rewrite Hflag, Hf. cbn [negb].
    assert ((m <=? sizeof_data_short_) = false) as -> by lia.
    unfold malloc. rewrite Havail.
    assert ((m <=? avail w) = false) as -> by lia.
    unfold CHECK_NE. fields. by rewrite decide_True. }
  destruct (Z.of_nat (length d) <? m) eqn:Eshort.
  { apply Z.ltb_lt in Eshort.
    destruct (QuicConnectionId_ctor_clamp n w)
      as (w1 & Hclamp & Hflag & _ & Havail).
    unfold QuicConnectionId_ctor. unfold bind at 1. rewrite Hclamp.
    fold m. fields.
    assert ((m =? 0) = false) as -> by lia.
    assert (forall dst, memcpy dst d m = OutOfBounds) as Hcopy.
    { intros dst. unfold memcpy.
      assert ((m <=? Z.of_nat (length d)) = false) as -> by lia.
      by rewrite andb_false_r. }
    unfold bind, GetQuicRestartFlag. rewrite Hflag.
    destruct (quic_use_allocated_connection_ids w) eqn:Hf; cbn [negb].
    2:{ unfold lift. by rewrite Hcopy. }
    destruct (m <=? sizeof_data_short_) eqn:Es.
    { unfold lift. by rewrite Hcopy. }
    unfold malloc. rewrite Havail.
    assert ((m <=? avail w) = true) as ->.
    { cbn in Efail. rewrite andb_false_iff in Efail. lia. }
    unfold CHECK_NE. fields. rewrite decide_False by done.
    unfold memcpy_heap, bind, deref, lift. fields.
    by rewrite lookup_insert_eq, Hcopy. }
  apply Z.ltb_ge in Eshort.
  destruct (QuicConnectionId_ctor_spec d n w)
    as (this & w' & Hrun & Hlen & _); try done; try (fold m; lia).
  { fold m. unfold can_hold. rewrite !andb_false_iff in Efail.
    rewrite !orb_true_iff.
    destruct (quic_use_allocated_connection_ids w); cbn; [|tauto].
    destruct Efail as [[E | E] | E];
      [done | left; right; lia | right; lia]. }
  by exists this, w'.
Qed.

(** X10. [set_length] on a well-formed identifier ends in exactly two ways:
    where the new length needs a heap block that the allocator cannot serve
    even with the identifier's own block given back, the [CHECK] fails;
    otherwise it returns with the new length.  It never reads or writes out
    of bounds, also with a length above the maximum. *)
Theorem set_length_outcome (this : QuicConnectionId) (n : Z) (w : world) :
  well_formed w this = true ->
  0 <= n ->
  if quic_use_allocated_connection_ids w && (sizeof_data_short_ <? n)
     && (budget w this <? n)
  then set_length this n w = CheckFailed
  else exists this' w',
         set_length this n w = Ok (this', w')
         /\ QuicConnectionId_length this' = n.
Proof.
  intros Hwf Hn. destruct (well_formed_inv _ _ Hwf) as (H1 & H2 & H3 & H4).
  unfold budget, on_heap, set_length, bind, GetQuicRestartFlag.
  destruct (quic_use_allocated_connection_ids w) eqn:Hf; cbn [andb].
  2:{ eexists _, _. by unfold ret. }
  destruct (sizeof_data_short_ <? n) eqn:En; cbn [andb].
  - destruct (length_ this <=? sizeof_data_short_) eqn:El.
    + assert ((sizeof_data_short_ <? length_ this) = false) as -> by lia.
      unfold lift. rewrite memcpy_ok by (rewrite ?junk_length; lia).
      unfold malloc.
      destruct (avail w <? n) eqn:Ea.
      * assert ((n <=? avail w) = false) as -> by lia.
        unfold CHECK_NE. fields. by rewrite decide_True.
      * assert ((n <=? avail w) = true) as -> by lia.
        unfold CHECK_NE. fields. rewrite decide_False by done.
        unfold memcpy_heap, bind, deref, lift, poke. fields.
        rewrite lookup_insert_eq. rewrite memcpy_ok by lengths.
        eexists _, _. by unfold ret.
    + assert ((sizeof_data_short_ <? length_ this) = true) as -> by lia.
      destruct H4 as (a & blk & Ha & Hb & Hl); [done | lia |].
      rewrite Ha. unfold realloc. rewrite Hb.
      destruct (avail w + length_ this <? n) eqn:Ea.
      * assert ((n <=? avail w + Z.of_nat (length blk)) = false) as -> by lia.
        unfold CHECK_NE. by rewrite decide_True.
      * assert ((n <=? avail w + Z.of_nat (length blk)) = true) as -> by lia.
        unfold CHECK_NE. rewrite decide_False by done.
        eexists _, _. by unfold ret.
  - destruct (sizeof_data_short_ <? length_ this) eqn:El.
    + destruct H4 as (a & blk & Ha & Hb & Hl); [done | lia |].
      rewrite Ha. unfold deref at 1. rewrite Hb. unfold lift.
      rewrite memcpy_ok by (rewrite ?junk_length; lia).
      unfold free. rewrite Hb. fields. rewrite memcpy_ok by lengths.
      eexists _, _. by unfold ret.
    + eexists _, _. by unfold ret.
Qed.

(** X11. With the flag off no member function touches the heap: whatever
    the constructor, the copy constructor, [set_length], assignment and the
    destructor are given, if they return, the heap and the allocator are as
    they were. *)
Theorem flag_off_never_allocates
    (this other : QuicConnectionId) (d : list byte) (n : Z) (w : world) :
  quic_use_allocated_connection_ids w = false ->
  heap_untouched w (QuicConnectionId_ctor d n w)
  /\ heap_untouched w (QuicConnectionId_copy other w)
  /\ heap_untouched w (set_length this n w)
  /\ heap_untouched w (operator_assign this other w)
  /\ heap_untouched w (QuicConnectionId_dtor this w).
Proof.
  intros Hf.
  assert (forall d n, heap_untouched w (QuicConnectionId_ctor d n w))
    as Hctor.
  { clear d n. intros d n.
    destruct (QuicConnectionId_ctor_clamp n w)
      as (w1 & Hclamp & Hflag & Hheap & Havail).
    unfold QuicConnectionId_ctor. unfold bind at 1. rewrite Hclamp. fields.
    destruct (_ =? 0); [by unfold ret; cbn|].
    unfold bind, GetQuicRestartFlag. rewrite Hflag, Hf. cbn [negb].
    unfold lift. destruct (memcpy _ d _); cbn; try done. }
  assert (forall m, set_length this m w = Ok (with_length_ this m, w))
    as Hset.
  { intros m. unfold set_length, bind, GetQuicRestartFlag. by rewrite Hf. }
  split; [done|]. split.
  { unfold QuicConnectionId_copy, data, bind, GetQuicRestartFlag, ret.
    rewrite Hf. cbn [negb]. apply Hctor. }
  split; [by rewrite Hset|]. split.
  - unfold operator_assign, bind. rewrite Hset.
    unfold mutable_data, data, bind, GetQuicRestartFlag, ret.
    rewrite Hf. cbn [negb]. rewrite Hf. cbn [negb].
    unfold memcpy_to, bind, lift.
    destruct (memcpy _ (data_ other) _); cbn; done.
  - unfold QuicConnectionId_dtor, bind, GetQuicRestartFlag. rewrite Hf.
    by cbn.
Qed.

Lemma budget_avail (w : world) (this : QuicConnectionId) :
  0 <= length_ this -> avail w <= budget w this <= avail w + length_ this.
Proof. intros H. unfold budget. destruct (on_heap w this); lia. Qed.

(** X12. Nothing leaks: constructing an identifier, changing its length and
    destroying it leaves the heap and the allocator exactly as they were
    before the construction, whichever storage the identifier passed
    through. *)
Theorem construct_resize_destroy_leaks_nothing
    (d : list byte) (n m : Z) (w : world) :
  0 <= n ->
  Z.min n kQuicMaxConnectionIdLength <= Z.of_nat (length d) ->
  0 <= m <= kQuicMaxConnectionIdLength ->
  Z.min n kQuicMaxConnectionIdLength + m <= avail w ->
  exists id w',
    (let* id := QuicConnectionId_ctor d n in
     let* id := set_length id m in
     QuicConnectionId_dtor id) w = Ok (id, w')
    /\ heap w' = heap w
    /\ avail w' = avail w.
Proof.
  intros Hn Hd Hm Hmem.
  destruct (QuicConnectionId_ctor_spec d n w)
    as (x1 & w1 & Hrun1 & Hlen1 & _ & Hwf1 & Hflag1 & _); try done.
  { unfold can_hold. rewrite !orb_true_iff. right. lia. }
  destruct (QuicConnectionId_ctor_rest _ _ _ _ _ Hrun1)
    as (Hrest1 & Hbudget1 & _).
  pose proof (budget_avail w1 x1) as Hb1.
  destruct (set_length_spec x1 m w1 Hwf1 Hm)
    as (x2 & w2 & Hrun2 & Hlen2 & Hwf2 & _).
  { unfold can_hold. rewrite !orb_true_iff. right. lia. }
  destruct (set_length_rest _ _ _ _ _ Hwf1 Hrun2) as (Hrest2 & Hbudget2 & _).
  destruct (QuicConnectionId_dtor_spec x2 w2 Hwf2)
    as (w3 & Hrun3 & Hheap3 & Havail3 & _).
  eexists _, w3. unfold bind. rewrite Hrun1, Hrun2, Hrun3.
  split; [done|]. split; congruence.
Qed.

(** X13. Growing an identifier and shrinking it back gives back its bytes:
    after [set_length(n)] with [n] at least the length, then [set_length]
    to the old length, the identifier holds the bytes it held, and the
    allocator has what it had. *)
Theorem grow_then_shrink_restores
    (this : QuicConnectionId) (n : Z) (w : world) :
  well_formed w this = true ->
  QuicConnectionId_length this <= n <= kQuicMaxConnectionIdLength ->
  can_hold w n = true ->
  exists this1 w1 this2 w2,
    set_length this n w = Ok (this1, w1)
    /\ set_length this1 (QuicConnectionId_length this) w1 = Ok (this2, w2)
    /\ QuicConnectionId_length this2 = QuicConnectionId_length this
    /\ bytes this2 w2 = bytes this w
    /\ well_formed w2 this2 = true
    /\ avail w2 = avail w.
Proof.
  unfold QuicConnectionId_length. intros Hwf Hn Hmem.
  destruct (well_formed_inv _ _ Hwf) as (_ & _ & H3 & _).
  destruct (set_length_spec this n w Hwf) as
    (this1 & w1 & Hrun1 & Hlen1 & Hwf1 & Hpre1 & Hflag1 & _);
    [lia | done |].
  destruct (set_length_rest _ _ _ _ _ Hwf Hrun1) as (_ & Hbudget1 & _).
  assert (can_hold w1 (length_ this) = true) as Hmem1.
  { unfold can_hold, budget, on_heap in *. rewrite Hflag1, Hlen1 in *.
    destruct (quic_use_allocated_connection_ids w); [|done].
    cbn in *. destruct (length_ this <=? sizeof_data_short_) eqn:E; [done|].
    assert ((sizeof_data_short_ <? n) = true) as En by lia.
    assert ((sizeof_data_short_ <? length_ this) = true) as El by lia.
    rewrite En, El in Hbudget1.
    assert ((n <=? sizeof_data_short_) = false) as En' by lia.
    rewrite En' in Hmem. cbn in Hmem. lia. }
  destruct (set_length_spec this1 (length_ this) w1 Hwf1) as
    (this2 & w2 & Hrun2 & Hlen2 & Hwf2 & Hpre2 & Hflag2 & _);
    [lia | done |].
  destruct (set_length_rest _ _ _ _ _ Hwf1 Hrun2) as (_ & Hbudget2 & _).
  exists this1, w1, this2, w2.
  split; [done|]. split; [done|]. split; [done|].
  pose proof (bytes_length _ _ Hwf) as L0.
  pose proof (bytes_length _ _ Hwf2) as L2.
  rewrite Hlen1 in Hpre2.
  replace (Z.min (length_ this) n) with (length_ this) in Hpre1 by lia.
  replace (Z.min n (length_ this)) with (length_ this) in Hpre2 by lia.
  rewrite (take_ge (bytes this w)) in Hpre1 by lia.
  rewrite (take_ge (bytes this2 w2)) in Hpre2 by lia.
  split; [congruence|]. split; [done|].
  unfold budget, on_heap in *.
  rewrite Hflag2, Hflag1, Hlen2, Hlen1 in Hbudget2.
  rewrite Hflag1, Hlen1 in Hbudget1.
  destruct (quic_use_allocated_connection_ids w
            && (sizeof_data_short_ <? length_ this));
    destruct (quic_use_allocated_connection_ids w
              && (sizeof_data_short_ <? n)); lia.
Qed.

(** X14. [set_length(0)] always returns on a well-formed identifier: the
    identifier becomes empty and equal to [EmptyQuicConnectionId()], and a
    heap block it owned is released. *)
Theorem set_length_zero_empties (this : QuicConnectionId) (w : world) :
  well_formed w this = true ->
  exists this' w',
    set_length this 0 w = Ok (this', w')
    /\ IsEmpty this' = true
    /\ well_formed w' this' = true
    /\ heap w' = rest_of_heap w this
    /\ avail w' = budget w this
    /\ (let* e := EmptyQuicConnectionId in operator_eq this' e) w'
       = Ok (true, w').
Proof.
  intros Hwf.
  destruct (set_length_spec this 0 w Hwf) as
    (this' & w' & Hrun & Hlen & Hwf' & _ & Hflag & _); [lia | |].
  { unfold can_hold. rewrite !orb_true_iff. left. right. lia. }
  destruct (set_length_rest _ _ _ _ _ Hwf Hrun) as (Hrest & Hbudget & _).
  assert (on_heap w' this' = false) as Hoff.
  { unfold on_heap. rewrite Hlen.
    assert ((sizeof_data_short_ <? 0) = false) as -> by lia.
    apply andb_false_r. }
  unfold rest_of_heap at 1 in Hrest. unfold budget at 1 in Hbudget.
  rewrite Hoff in Hrest, Hbudget.
  exists this', w'. split; [done|]. split.
  { unfold IsEmpty. by rewrite Hlen. }
  split; [done|]. split; [done|]. split; [done|].
  unfold bind, EmptyQuicConnectionId, QuicConnectionId_default,
    QuicConnectionId_ctor.
  assert ((kQuicMaxConnectionIdLength <? 0) = false) as -> by lia.
  unfold ret at 1. fields. cbn [Z.eqb]. unfold ret at 1.
  apply operator_eq_same_bytes; try done.
  - apply well_formed_intro; fields; rewrite ?junk_length; lia.
  - by rewrite !bytes_of_empty.
Qed.


Lemma hex_digit_inj (a b : Z) :
  0 <= a < 16 -> 0 <= b < 16 -> hex_digit a = hex_digit b -> a = b.
Proof.
  intros Ha Hb H. unfold hex_digit in H.
  assert (List.NoDup (list_ascii_of_string lowercase_hex_digits)) as Hnd.
  { cbn. repeat (constructor; [cbn; intuition discriminate|]). constructor. }
  assert (Z.to_nat a = Z.to_nat b); [|lia].
  eapply (proj1 (List.NoDup_nth _ _) Hnd); [| |exact H];
    change (length (list_ascii_of_string lowercase_hex_digits)) with 16%nat;
    lia.
Qed.

Lemma hex_of_bytes_inj (a b : list byte) :
  hex_of_bytes a = hex_of_bytes b -> a = b.
Proof.
  revert b. induction a as [|x a IH]; intros [|y b] H; try done.
  cbn [hex_of_bytes] in H. injection H as Hhi Hlo Htl.
  pose proof (Z_of_byte_range x) as Hx. pose proof (Z_of_byte_range y) as Hy.
  apply hex_digit_inj in Hhi;
    [| split; [apply Z.div_pos; lia | apply Z.div_lt_upper_bound; lia]
     | split; [apply Z.div_pos; lia | apply Z.div_lt_upper_bound; lia]].
  apply hex_digit_inj in Hlo; [| apply Z.mod_pos_bound; lia ..].
  f_equal; [|by apply IH]. apply Z_of_byte_inj.
  rewrite (Z.div_mod (Z_of_byte x) 16), (Z.div_mod (Z_of_byte y) 16) by lia.
  by rewrite Hhi, Hlo.
Qed.

(** X16. [ToString()] tells identifiers apart: two well-formed identifiers
    render as the same string exactly when they are equal under
    [operator==].  In particular the "0" of the empty identifier is the
    rendering of no other identifier. *)
Theorem ToString_tells_apart (x y : QuicConnectionId) (w : world) :
  well_formed w x = true -> well_formed w y = true ->
  ToString x w = ToString y w <-> operator_eq x y w = Ok (true, w).
Proof.
  intros Hx Hy.
  pose proof (bytes_length _ _ Hx) as Lx.
  pose proof (bytes_length _ _ Hy) as Ly.
  rewrite !ToString_spec, operator_eq_spec by done.
  assert (forall v, length_ v <> 0 ->
            Z.of_nat (length (bytes v w)) = length_ v ->
            "0"%string <> hex_of_bytes (bytes v w)) as Hzero.
  { intros v Hv Lv E. apply (f_equal String.length) in E.
    rewrite hex_of_bytes_length in E. cbn in E. lia. }
  split.
  - intros [= H]. do 2 f_equal. rewrite andb_true_iff, !Z.eqb_eq.
    destruct (Z.eqb_spec (length_ x) 0) as [Ex | Ex];
      destruct (Z.eqb_spec (length_ y) 0) as [Ey | Ey].
    + split; [lia|]. apply memcmp_bytes_eq; [lia|].
      by rewrite !bytes_of_empty.
    + by apply Hzero in H.
    + symmetry in H. by apply Hzero in H.
    + apply hex_of_bytes_inj in H. rewrite H in *.
      split; [lia|]. by apply memcmp_bytes_eq.
  - intros [= H]. rewrite andb_true_iff, !Z.eqb_eq in H.
    destruct H as [E H]. apply memcmp_bytes_eq in H; [|lia].
    by rewrite E, H.
Qed.

(** X17. The flag changes where the bytes live, not what an identifier is:
    built from one buffer and one requested length in a world with the flag
    off and in a world with the flag on, the two identifiers have the same
    length, the same bytes, the same hash and the same rendering. *)
Theorem flag_is_not_observable (d : list byte) (n : Z) (w_off w_on : world) :
  quic_use_allocated_connection_ids w_off = false ->
  quic_use_allocated_connection_ids w_on = true ->
  0 <= n ->
  Z.min n kQuicMaxConnectionIdLength <= Z.of_nat (length d) ->
  can_hold w_on (Z.min n kQuicMaxConnectionIdLength) = true ->
  exists a wa b wb h s,
    QuicConnectionId_ctor d n w_off = Ok (a, wa)
    /\ QuicConnectionId_ctor d n w_on = Ok (b, wb)
    /\ QuicConnectionId_length a = QuicConnectionId_length b
    /\ bytes a wa = bytes b wb
    /\ Hash a wa = Ok (h, wa) /\ Hash b wb = Ok (h, wb)
    /\ ToString a wa = Ok (s, wa) /\ ToString b wb = Ok (s, wb).
Proof.
  intros Hoff Hon Hn Hd Hmem.
  destruct (QuicConnectionId_ctor_spec d n w_off)
    as (a & wa & Hruna & Hlena & Hbytesa & Hwfa & _); try done.
  { unfold can_hold. by rewrite Hoff. }
  destruct (QuicConnectionId_ctor_spec d n w_on)
    as (b & wb & Hrunb & Hlenb & Hbytesb & Hwfb & _); try done.
  exists a, wa, b, wb. eexists _, _.
  split; [done|]. split; [done|].
  split; [unfold QuicConnectionId_length; congruence|].
  split; [congruence|].
  split; [by apply Hash_spec|]. split.
  { rewrite Hash_spec by done. by rewrite Hlenb, Hbytesb, Hlena, Hbytesa. }
  split; [by apply ToString_spec|].
  rewrite ToString_spec by done. by rewrite Hlenb, Hbytesb, Hlena, Hbytesa.
Qed.

End QuicConnectionId.

(** ** The claims on the sample identifiers *)

Import Sample.

Lemma set_length_preserves_prefix_witness :
  well_formed 18 11 heap_world long_id = true
  /\ 0 <= 5 <= 18
  /\ can_hold 11 heap_world 5 = true
  /\ exists this' w',
       set_length 11 indeterminate long_id 5 heap_world = Ok (this', w')
       /\ QuicConnectionId_length this' = 5
       /\ well_formed 18 11 w' this' = true
       /\ take (Z.to_nat (Z.min (QuicConnectionId_length long_id) 5))
               (bytes 11 this' w')
          = take (Z.to_nat (Z.min (QuicConnectionId_length long_id) 5))
                 (bytes 11 long_id heap_world)
       /\ (quic_use_allocated_connection_ids heap_world = false ->
           w' = heap_world /\ this' = with_length_ long_id 5).
Proof.
  split; [reflexivity|]. split; [lia|]. split; [reflexivity|].
  apply (set_length_preserves_prefix 18 11 indeterminate long_id 5 heap_world);
    [reflexivity | lia | reflexivity].
Defined.

Lemma Hash_matches_formula_witness :
  0 <= 18 <= 255 /\ 0 <= 11 /\ 18 <= 24 /\ 64 <= 64
  /\ well_formed 18 11 heap_world long_id = true
  /\ Hash 8 11 true 64 long_id heap_world
     = Ok (hash_formula 8 true (QuicConnectionId_length long_id)
             (bytes 11 long_id heap_world), heap_world)
  /\ (8 = 8 -> 8 <= 18 ->
      forall w0 : world,
        can_hold 11 w0 8 = true ->
        exists id w1,
          QuicConnectionId_ctor 18 11 indeterminate nullptr one_to_eight 8 w0
          = Ok (id, w1)
          /\ Hash 8 11 true 64 id w1 = Ok (decode_be one_to_eight, w1)
          /\ decode_be one_to_eight = 0x0102030405060708).
Proof.
  split; [lia|]. split; [lia|]. split; [lia|]. split; [lia|].
  split; [reflexivity|].
  apply (Hash_matches_formula 18 8 11 true 64 indeterminate nullptr);
    [lia | lia | lia | lia | reflexivity].
Defined.

Lemma operator_lt_length_then_bytes_witness :
  well_formed 18 11 hybrid_world short_id = true
  /\ well_formed 18 11 hybrid_world other_short_id = true
  /\ exists b,
       operator_lt 11 short_id other_short_id hybrid_world
       = Ok (b, hybrid_world)
       /\ (b = true <->
           QuicConnectionId_length short_id
           < QuicConnectionId_length other_short_id
           \/ (QuicConnectionId_length short_id
               = QuicConnectionId_length other_short_id
               /\ lex_lt (bytes 11 short_id hybrid_world)
                         (bytes 11 other_short_id hybrid_world)))
       /\ (QuicConnectionId_length short_id = 3 ->
           QuicConnectionId_length other_short_id = 5 -> b = true).
Proof.
  split; [reflexivity|]. split; [reflexivity|].
  apply (operator_lt_length_then_bytes 18 11 short_id other_short_id
           hybrid_world); reflexivity.
Defined.

Lemma operator_eq_length_and_bytes_witness :
  well_formed 18 11 heap_world short_id = true
  /\ well_formed 18 11 heap_world long_id = true
  /\ well_formed 18 11 heap_world other_short_id = true
  /\ exists b,
       operator_eq 11 short_id long_id heap_world = Ok (b, heap_world)
       /\ (b = true <->
           QuicConnectionId_length short_id = QuicConnectionId_length long_id
           /\ bytes 11 short_id heap_world = bytes 11 long_id heap_world)
       /\ (forall (x' y' : QuicConnectionId) (w' : world),
             well_formed 18 11 w' x' = true ->
             well_formed 18 11 w' y' = true ->
             QuicConnectionId_length x' = QuicConnectionId_length short_id ->
             bytes 11 x' w' = bytes 11 short_id heap_world ->
             QuicConnectionId_length y' = QuicConnectionId_length long_id ->
             bytes 11 y' w' = bytes 11 long_id heap_world ->
             operator_eq 11 x' y' w' = Ok (b, w'))
       /\ operator_eq 11 short_id short_id heap_world = Ok (true, heap_world)
       /\ operator_eq 11 long_id short_id heap_world = Ok (b, heap_world)
       /\ (b = true ->
           operator_eq 11 long_id other_short_id heap_world
           = Ok (true, heap_world) ->
           operator_eq 11 short_id other_short_id heap_world
           = Ok (true, heap_world)).
Proof.
  split; [reflexivity|]. split; [reflexivity|]. split; [reflexivity|].
  apply (operator_eq_length_and_bytes 18 11 short_id long_id other_short_id
           heap_world); reflexivity.
Defined.

Lemma construct_holds_bytes_witness :
  0 <= 18 <= 255 /\ 0 <= 11
  /\ Z.of_nat (length twelve) <= 18
  /\ can_hold 11 hybrid_world (Z.of_nat (length twelve)) = true
  /\ exists this w',
       QuicConnectionId_ctor 18 11 indeterminate nullptr twelve
         (Z.of_nat (length twelve)) hybrid_world = Ok (this, w')
       /\ QuicConnectionId_length this = Z.of_nat (length twelve)
       /\ bytes 11 this w' = twelve
       /\ well_formed 18 11 w' this = true.
Proof.
  split; [lia|]. split; [lia|]. split; [simpl; lia|]. split; [reflexivity|].
  apply (construct_holds_bytes 18 11 indeterminate nullptr);
    [lia | lia | simpl; lia | reflexivity].
Defined.

Lemma construct_oversize_clamps_witness :
  0 <= 18 <= 255 /\ 0 <= 11
  /\ 18 < 23 <= 255
  /\ 18 <= Z.of_nat (length (twelve ++ twelve))
  /\ can_hold 11 hybrid_world 18 = true
  /\ exists this w',
       QuicConnectionId_ctor 18 11 indeterminate nullptr (twelve ++ twelve) 23
         hybrid_world = Ok (this, w')
       /\ QuicConnectionId_length this = 18
       /\ bytes 11 this w' = take (Z.to_nat 18) (twelve ++ twelve)
       /\ log w' = oversize_message 23 :: log hybrid_world.
Proof.
  split; [lia|]. split; [lia|]. split; [lia|]. split; [simpl; lia|].
  split; [reflexivity|].
  apply (construct_oversize_clamps 18 11 indeterminate nullptr);
    [lia | lia | lia | simpl; lia | reflexivity].
Defined.

Lemma ToString_renders_hex_witness :
  0 <= 18 <= 255 /\ 0 <= 11
  /\ well_formed 18 11 heap_world long_id = true
  /\ (QuicConnectionId_length long_id = 0 ->
      ToString 11 long_id heap_world = Ok ("0"%string, heap_world))
  /\ (QuicConnectionId_length long_id <> 0 ->
      ToString 11 long_id heap_world
      = Ok (hex_of_bytes (bytes 11 long_id heap_world), heap_world)
      /\ Z.of_nat (String.length
                     (hex_of_bytes (bytes 11 long_id heap_world)))
         = 2 * QuicConnectionId_length long_id
      /\ Forall (fun c => In c (list_ascii_of_string lowercase_hex_digits))
                (list_ascii_of_string
                   (hex_of_bytes (bytes 11 long_id heap_world))))
  /\ (8 <= 18 ->
      forall w0 : world,
        can_hold 11 w0 8 = true ->
        exists id w1,
          QuicConnectionId_ctor 18 11 indeterminate nullptr one_to_eight 8 w0
          = Ok (id, w1)
          /\ ToString 11 id w1 = Ok ("0102030405060708"%string, w1)).
Proof.
  split; [lia|]. split; [lia|]. split; [reflexivity|].
  apply (ToString_renders_hex 18 11 indeterminate nullptr);
    [lia | lia | reflexivity].
Defined.

Lemma Hash_depends_on_length_and_bytes_witness :
  0 <= 18 <= 255 /\ 0 <= 11 /\ 18 <= 24
  /\ well_formed 18 11 heap_world long_id = true
  /\ (forall (x2 : QuicConnectionId) (w2 : world),
        well_formed 18 11 w2 x2 = true ->
        QuicConnectionId_length x2 = QuicConnectionId_length long_id ->
        bytes 11 x2 w2 = bytes 11 long_id heap_world ->
        exists h,
          Hash 8 11 true 64 long_id heap_world = Ok (h, heap_world)
          /\ Hash 8 11 true 64 x2 w2 = Ok (h, w2))
  /\ (can_hold 11 heap_world (QuicConnectionId_length long_id) = true ->
      exists x' w' h,
        QuicConnectionId_copy 18 11 indeterminate nullptr long_id heap_world
        = Ok (x', w')
        /\ Hash 8 11 true 64 long_id heap_world = Ok (h, heap_world)
        /\ Hash 8 11 true 64 x' w' = Ok (h, w')).
Proof.
  split; [lia|]. split; [lia|]. split; [lia|]. split; [reflexivity|].
  apply (Hash_depends_on_length_and_bytes 18 8 11 true 64 indeterminate
           nullptr); [lia | lia | lia | reflexivity].
Defined.

Lemma comparison_trichotomy_witness :
  well_formed 18 11 heap_world short_id = true
  /\ well_formed 18 11 heap_world other_short_id = true
  /\ well_formed 18 11 heap_world long_id = true
  /\ exists lt gt eq,
       operator_lt 11 short_id other_short_id heap_world
       = Ok (lt, heap_world)
       /\ operator_lt 11 other_short_id short_id heap_world
          = Ok (gt, heap_world)
       /\ operator_eq 11 short_id other_short_id heap_world
          = Ok (eq, heap_world)
       /\ ((lt = true /\ gt = false /\ eq = false)
           \/ (lt = false /\ gt = true /\ eq = false)
           \/ (lt = false /\ gt = false /\ eq = true))
       /\ operator_ne 11 short_id other_short_id heap_world
          = Ok (negb eq, heap_world)
       /\ (lt = true ->
           operator_lt 11 other_short_id long_id heap_world
           = Ok (true, heap_world) ->
           operator_lt 11 short_id long_id heap_world
           = Ok (true, heap_world)).
Proof.
  split; [reflexivity|]. split; [reflexivity|]. split; [reflexivity|].
  apply (comparison_trichotomy 18 11 short_id other_short_id long_id
           heap_world); reflexivity.
Defined.

Lemma set_length_exceeds_maximum_witness :
  quic_use_allocated_connection_ids legacy_world = false
  /\ Z.of_nat (length (data_ legacy_id)) = 18
  /\ 18 < 19
  /\ exists this',
       set_length 11 indeterminate legacy_id 19 legacy_world
       = Ok (this', legacy_world)
       /\ 18 < QuicConnectionId_length this'
       /\ Hash 8 11 true 64 this' legacy_world = OutOfBounds.
Proof.
  split; [reflexivity|]. split; [reflexivity|]. split; [lia|].
  apply (set_length_exceeds_maximum 18 8 11 true 64 indeterminate legacy_id
           19 legacy_world); [reflexivity | reflexivity | lia].
Defined.

(** ** The code run on the sample identifiers *)

Example resize_within_data_short_ :
  held 11 (set_length 11 indeterminate short_id 2 hybrid_world)
  = Some (2, [Byte.x01; Byte.x02], nullptr).
Proof. reflexivity. Qed.

Example resize_data_short_to_heap :
  held 11 (set_length 11 indeterminate short_id 12 hybrid_world)
  = Some (12, [Byte.x01; Byte.x02; Byte.x03] ++ replicate 9 Byte.xaa,
          Some 1%positive).
Proof. reflexivity. Qed.

Example resize_within_heap :
  held 11 (set_length 11 indeterminate long_id 14 heap_world)
  = Some (14, twelve ++ [Byte.xaa; Byte.xaa], Some 1%positive).
Proof. reflexivity. Qed.

Example resize_heap_to_data_short_ :
  held 11 (set_length 11 indeterminate long_id 5 heap_world)
  = Some (5, take 5 twelve, nullptr).
Proof. reflexivity. Qed.

Example resize_with_flag_off :
  held 11 (set_length 11 indeterminate legacy_id 12 legacy_world)
  = Some (12, [Byte.x01; Byte.x02; Byte.x03] ++ replicate 9 Byte.xaa, nullptr).
Proof. reflexivity. Qed.

Example heap_exhausted_is_fatal :
  set_length 11 indeterminate short_id 12 (World true ∅ 11 []) = CheckFailed.
Proof. reflexivity. Qed.

Example construct_from_short_buffer_is_out_of_bounds :
  QuicConnectionId_ctor 18 11 indeterminate nullptr one_to_eight 12
    hybrid_world = OutOfBounds.
Proof. reflexivity. Qed.

Example empty_renders_as_zero :
  (let* id := EmptyQuicConnectionId 18 11 indeterminate nullptr in
   ToString 11 id) legacy_world = Ok ("0"%string, legacy_world).
Proof. reflexivity. Qed.

Example hash_of_empty_on_either_host :
  (let* id := EmptyQuicConnectionId 18 11 indeterminate nullptr in
   Hash 8 11 true 64 id) legacy_world
  = Ok (0x0800000000000000, legacy_world)
  /\ (let* id := EmptyQuicConnectionId 18 11 indeterminate nullptr in
      Hash 8 11 false 64 id) legacy_world
     = Ok (8, legacy_world).
Proof. split; reflexivity. Qed.

Example hash_with_32_bit_size_t :
  (let* id := QuicConnectionId_ctor 18 11 indeterminate nullptr one_to_eight 8 in
   Hash 8 11 true 32 id) hybrid_world
  = Ok (0x05060708, hybrid_world).
Proof. reflexivity. Qed.

Example assign_long_to_short :
  held 11 (operator_assign 11 indeterminate short_id long_id heap_world)
  = Some (12, twelve, Some 2%positive).
Proof. reflexivity. Qed.

Example hash_with_flag_off_and_on :
  (let* id := QuicConnectionId_ctor 18 11 indeterminate nullptr twelve 12 in
   Hash 8 11 true 64 id) legacy_world
  = Ok (0x0c08080805060708, legacy_world)
  /\ exists w',
       (let* id := QuicConnectionId_ctor 18 11 indeterminate nullptr twelve 12 in
        Hash 8 11 true 64 id) hybrid_world
       = Ok (0x0c08080805060708, w').
Proof. split; [reflexivity | eexists; reflexivity]. Qed.

Example destructor_releases_block :
  (let* id := QuicConnectionId_dtor 11 long_id in ret (data_long_ id))
    heap_world
  = Ok (nullptr, World true ∅ 76 []).
Proof. reflexivity. Qed.

(** ** The further properties on the sample identifiers *)

Lemma EmptyQuicConnectionId_is_empty_witness :
  0 <= 18 <= 255 /\ 0 <= 11 /\ 18 <= 24
  /\ exists id,
       EmptyQuicConnectionId 18 11 indeterminate nullptr starved_world
       = Ok (id, starved_world)
       /\ IsEmpty id = true
       /\ ToString 11 id starved_world = Ok ("0"%string, starved_world).
Proof.
  split; [lia|]. split; [lia|]. split; [lia|].
  destruct (EmptyQuicConnectionId_is_empty 18 8 11 true 64 indeterminate
              nullptr ltac:(lia) ltac:(lia) ltac:(lia) starved_world)
    as (id & H1 & _ & _ & H4 & _ & H6 & _).
  exists id. split; [exact H1|]. split; [exact H4 | exact H6].
Defined.

Lemma empty_is_least_witness :
  well_formed 18 11 heap_world empty_id = true
  /\ well_formed 18 11 heap_world long_id = true
  /\ IsEmpty empty_id = true
  /\ operator_lt 11 long_id empty_id heap_world = Ok (false, heap_world)
  /\ operator_lt 11 empty_id long_id heap_world
     = Ok (negb (IsEmpty long_id), heap_world)
  /\ operator_eq 11 empty_id long_id heap_world
     = Ok (IsEmpty long_id, heap_world)
  /\ operator_ne 11 empty_id long_id heap_world
     = Ok (negb (IsEmpty long_id), heap_world).
Proof.
  split; [reflexivity|]. split; [reflexivity|]. split; [reflexivity|].
  apply (empty_is_least 18 11 empty_id long_id heap_world); reflexivity.
Defined.

Lemma operator_lt_respects_eq_witness :
  well_formed 18 11 heap_world short_id = true
  /\ well_formed 18 11 heap_world short_id_again = true
  /\ well_formed 18 11 heap_world long_id = true
  /\ operator_eq 11 short_id short_id_again heap_world
     = Ok (true, heap_world)
  /\ operator_lt 11 short_id long_id heap_world
     = operator_lt 11 short_id_again long_id heap_world
  /\ operator_lt 11 long_id short_id heap_world
     = operator_lt 11 long_id short_id_again heap_world
  /\ operator_eq 11 short_id long_id heap_world
     = operator_eq 11 short_id_again long_id heap_world.
Proof.
  split; [reflexivity|]. split; [reflexivity|]. split; [reflexivity|].
  split; [reflexivity|].
  apply (operator_lt_respects_eq 18 11 short_id short_id_again long_id
           heap_world); reflexivity.
Defined.

Lemma Hash_of_eight_bytes_witness :
  18 <= 24 /\ 64 <= 64 /\ 8 = 8
  /\ well_formed 18 11 hybrid_world eight_id = true
  /\ well_formed 18 11 hybrid_world thgie_id = true
  /\ QuicConnectionId_length eight_id = 8
  /\ QuicConnectionId_length thgie_id = 8
  /\ Hash 8 11 false 64 eight_id hybrid_world
     = Ok (decode_be (bytes 11 eight_id hybrid_world), hybrid_world)
  /\ (Hash 8 11 false 64 eight_id hybrid_world
      = Hash 8 11 false 64 thgie_id hybrid_world ->
      operator_eq 11 eight_id thgie_id hybrid_world
      = Ok (true, hybrid_world)).
Proof.
  split; [lia|]. split; [lia|]. split; [reflexivity|].
  split; [reflexivity|]. split; [reflexivity|]. split; [reflexivity|].
  split; [reflexivity|].
  apply (Hash_of_eight_bytes 18 8 11 false 64 ltac:(lia) eight_id thgie_id
           hybrid_world); [lia | reflexivity ..].
Defined.

Lemma mutable_data_writes_what_data_reads_witness :
  well_formed 18 11 heap_world long_id = true
  /\ QuicConnectionId_length long_id <= Z.of_nat (length (rev twelve))
  /\ exists dst this' w',
       mutable_data 11 long_id heap_world = Ok (dst, heap_world)
       /\ memcpy_to long_id dst (rev twelve)
            (QuicConnectionId_length long_id) heap_world = Ok (this', w')
       /\ bytes 11 this' w'
          = take (Z.to_nat (QuicConnectionId_length long_id)) (rev twelve).
Proof.
  split; [reflexivity|]. split; [cbn; lia|].
  destruct (mutable_data_writes_what_data_reads 18 11 long_id (rev twelve)
              heap_world ltac:(reflexivity) ltac:(cbn; lia))
    as (dst & this' & w' & H1 & H2 & _ & H4 & _).
  exists dst, this', w'. split; [exact H1|]. split; [exact H2 | exact H4].
Defined.

Lemma set_length_leaves_others_witness :
  well_formed 18 11 two_block_world long_id = true
  /\ well_formed 18 11 two_block_world second_long_id = true
  /\ shares_block 11 two_block_world long_id second_long_id = false
  /\ 0 <= 14 <= 18
  /\ can_hold 11 two_block_world 14 = true
  /\ exists this' w',
       set_length 11 indeterminate long_id 14 two_block_world
       = Ok (this', w')
       /\ well_formed 18 11 w' second_long_id = true
       /\ bytes 11 second_long_id w' = bytes 11 second_long_id two_block_world
       /\ shares_block 11 w' this' second_long_id = false.
Proof.
  split; [reflexivity|]. split; [reflexivity|]. split; [reflexivity|].
  split; [lia|]. split; [reflexivity|].
  apply (set_length_leaves_others 18 11 indeterminate long_id second_long_id
           14 two_block_world); [reflexivity | reflexivity | reflexivity
                                | lia | reflexivity].
Defined.

Lemma copy_is_deep_witness :
  0 <= 18 <= 255 /\ 0 <= 11
  /\ well_formed 18 11 heap_world long_id = true
  /\ can_hold 11 heap_world (QuicConnectionId_length long_id) = true
  /\ exists x' w',
       QuicConnectionId_copy 18 11 indeterminate nullptr long_id heap_world
       = Ok (x', w')
       /\ well_formed 18 11 w' x' = true
       /\ well_formed 18 11 w' long_id = true
       /\ bytes 11 long_id w' = bytes 11 long_id heap_world
       /\ operator_eq 11 x' long_id w' = Ok (true, w')
       /\ shares_block 11 w' x' long_id = false
       /\ rest_of_heap 11 w' x' = heap heap_world.
Proof.
  split; [lia|]. split; [lia|]. split; [reflexivity|]. split; [reflexivity|].
  apply (copy_is_deep 18 11 indeterminate nullptr);
    [lia | lia | reflexivity | reflexivity].
Defined.

Lemma operator_assign_makes_equal_witness :
  well_formed 18 11 two_block_world short_id = true
  /\ well_formed 18 11 two_block_world second_long_id = true
  /\ shares_block 11 two_block_world short_id second_long_id = false
  /\ can_hold 11 two_block_world (QuicConnectionId_length second_long_id)
     = true
  /\ exists this' w',
       operator_assign 11 indeterminate short_id second_long_id
         two_block_world = Ok (this', w')
       /\ well_formed 18 11 w' this' = true
       /\ well_formed 18 11 w' second_long_id = true
       /\ QuicConnectionId_length this'
          = QuicConnectionId_length second_long_id
       /\ bytes 11 this' w' = bytes 11 second_long_id two_block_world
       /\ bytes 11 second_long_id w'
          = bytes 11 second_long_id two_block_world
       /\ operator_eq 11 this' second_long_id w' = Ok (true, w').
Proof.
  split; [reflexivity|]. split; [reflexivity|]. split; [reflexivity|].
  split; [reflexivity|].
  apply (operator_assign_makes_equal 18 11 indeterminate short_id
           second_long_id two_block_world); reflexivity.
Defined.

Lemma QuicConnectionId_ctor_outcome_witness :
  0 <= 18 <= 255 /\ 0 <= 11 /\ 0 <= 12
  /\ QuicConnectionId_ctor 18 11 indeterminate nullptr twelve 12
       starved_world = CheckFailed
  /\ QuicConnectionId_ctor 18 11 indeterminate nullptr one_to_eight 12
       hybrid_world = OutOfBounds
  /\ exists this w',
       QuicConnectionId_ctor 18 11 indeterminate nullptr twelve 12
         hybrid_world = Ok (this, w')
       /\ QuicConnectionId_length this = Z.min 12 18.
Proof.
  split; [lia|]. split; [lia|]. split; [lia|].
  split; [|split].
  - exact (QuicConnectionId_ctor_outcome 18 11 indeterminate nullptr
             ltac:(lia) ltac:(lia) twelve 12 starved_world ltac:(lia)).
  - exact (QuicConnectionId_ctor_outcome 18 11 indeterminate nullptr
             ltac:(lia) ltac:(lia) one_to_eight 12 hybrid_world ltac:(lia)).
  - exact (QuicConnectionId_ctor_outcome 18 11 indeterminate nullptr
             ltac:(lia) ltac:(lia) twelve 12 hybrid_world ltac:(lia)).
Defined.

Lemma set_length_outcome_witness :
  well_formed 18 11 starved_world short_id = true
  /\ well_formed 18 11 heap_world long_id = true
  /\ 0 <= 12 /\ 0 <= 70
  /\ set_length 11 indeterminate short_id 12 starved_world = CheckFailed
  /\ exists this' w',
       set_length 11 indeterminate long_id 70 heap_world = Ok (this', w')
       /\ QuicConnectionId_length this' = 70.
Proof.
  split; [reflexivity|]. split; [reflexivity|]. split; [lia|].
  split; [lia|]. split.
  - exact (set_length_outcome 18 11 indeterminate short_id 12 starved_world
             ltac:(reflexivity) ltac:(lia)).
  - exact (set_length_outcome 18 11 indeterminate long_id 70 heap_world
             ltac:(reflexivity) ltac:(lia)).
Defined.

Lemma flag_off_never_allocates_witness :
  quic_use_allocated_connection_ids legacy_world = false
  /\ heap_untouched legacy_world
       (QuicConnectionId_ctor 18 11 indeterminate nullptr twelve 12
          legacy_world)
  /\ heap_untouched legacy_world
       (QuicConnectionId_copy 18 11 indeterminate nullptr legacy_id
          legacy_world)
  /\ heap_untouched legacy_world
       (set_length 11 indeterminate legacy_id 12 legacy_world)
  /\ heap_untouched legacy_world
       (operator_assign 11 indeterminate legacy_id legacy_id legacy_world)
  /\ heap_untouched legacy_world
       (QuicConnectionId_dtor 11 legacy_id legacy_world).
Proof.
  split; [reflexivity|].
  apply (flag_off_never_allocates 18 11 indeterminate nullptr legacy_id
           legacy_id twelve 12 legacy_world); reflexivity.
Defined.

Lemma construct_resize_destroy_leaks_nothing_witness :
  0 <= 18 <= 255 /\ 0 <= 11 /\ 0 <= 12
  /\ Z.min 12 18 <= Z.of_nat (length twelve)
  /\ 0 <= 5 <= 18
  /\ Z.min 12 18 + 5 <= avail hybrid_world
  /\ exists id w',
       (let* id := QuicConnectionId_ctor 18 11 indeterminate nullptr twelve 12 in
        let* id := set_length 11 indeterminate id 5 in
        QuicConnectionId_dtor 11 id) hybrid_world = Ok (id, w')
       /\ heap w' = heap hybrid_world
       /\ avail w' = avail hybrid_world.
Proof.
  split; [lia|]. split; [lia|]. split; [lia|]. split; [cbn; lia|].
  split; [lia|]. split; [cbn; lia|].
  apply (construct_resize_destroy_leaks_nothing 18 11 indeterminate nullptr);
    [lia | lia | lia | cbn; lia | lia | cbn; lia].
Defined.

Lemma grow_then_shrink_restores_witness :
  well_formed 18 11 hybrid_world short_id = true
  /\ QuicConnectionId_length short_id <= 12 <= 18
  /\ can_hold 11 hybrid_world 12 = true
  /\ exists this1 w1 this2 w2,
       set_length 11 indeterminate short_id 12 hybrid_world = Ok (this1, w1)
       /\ set_length 11 indeterminate this1
            (QuicConnectionId_length short_id) w1 = Ok (this2, w2)
       /\ QuicConnectionId_length this2 = QuicConnectionId_length short_id
       /\ bytes 11 this2 w2 = bytes 11 short_id hybrid_world
       /\ well_formed 18 11 w2 this2 = true
       /\ avail w2 = avail hybrid_world.
Proof.
  split; [reflexivity|]. split; [cbn; lia|]. split; [reflexivity|].
  apply (grow_then_shrink_restores 18 11 indeterminate short_id 12
           hybrid_world); [reflexivity | cbn; lia | reflexivity].
Defined.

Lemma set_length_zero_empties_witness :
  0 <= 18 <= 255 /\ 0 <= 11
  /\ well_formed 18 11 heap_world long_id = true
  /\ exists this' w',
       set_length 11 indeterminate long_id 0 heap_world = Ok (this', w')
       /\ IsEmpty this' = true
       /\ well_formed 18 11 w' this' = true
       /\ heap w' = rest_of_heap 11 heap_world long_id
       /\ avail w' = budget 11 heap_world long_id
       /\ (let* e := EmptyQuicConnectionId 18 11 indeterminate nullptr in
           operator_eq 11 this' e) w' = Ok (true, w').
Proof.
  split; [lia|]. split; [lia|]. split; [reflexivity|].
  apply (set_length_zero_empties 18 11 indeterminate nullptr);
    [lia | lia | reflexivity].
Defined.


Lemma ToString_tells_apart_witness :
  0 <= 18 <= 255
  /\ well_formed 18 11 hybrid_world short_id = true
  /\ well_formed 18 11 hybrid_world short_id_again = true
  /\ (ToString 11 short_id hybrid_world
      = ToString 11 short_id_again hybrid_world
      <-> operator_eq 11 short_id short_id_again hybrid_world
          = Ok (true, hybrid_world)).
Proof.
  split; [lia|]. split; [reflexivity|]. split; [reflexivity|].
  apply (ToString_tells_apart 18 11); [lia | reflexivity | reflexivity].
Defined.

Lemma flag_is_not_observable_witness :
  0 <= 18 <= 255 /\ 0 <= 11 /\ 18 <= 24
  /\ quic_use_allocated_connection_ids legacy_world = false
  /\ quic_use_allocated_connection_ids hybrid_world = true
  /\ 0 <= 12
  /\ Z.min 12 18 <= Z.of_nat (length twelve)
  /\ can_hold 11 hybrid_world (Z.min 12 18) = true
  /\ exists a wa b wb h s,
       QuicConnectionId_ctor 18 11 indeterminate nullptr twelve 12
         legacy_world = Ok (a, wa)
       /\ QuicConnectionId_ctor 18 11 indeterminate nullptr twelve 12
            hybrid_world = Ok (b, wb)
       /\ QuicConnectionId_length a = QuicConnectionId_length b
       /\ bytes 11 a wa = bytes 11 b wb
       /\ Hash 8 11 true 64 a wa = Ok (h, wa)
       /\ Hash 8 11 true 64 b wb = Ok (h, wb)
       /\ ToString 11 a wa = Ok (s, wa) /\ ToString 11 b wb = Ok (s, wb).
Proof.
  split; [lia|]. split; [lia|]. split; [lia|]. split; [reflexivity|].
  split; [reflexivity|]. split; [lia|]. split; [cbn; lia|].
  split; [reflexivity|].
  apply (flag_is_not_observable 18 8 11 true 64 indeterminate nullptr);
    [lia | lia | lia | reflexivity | reflexivity | lia | cbn; lia
    | reflexivity].
Defined.
